(** * Chat-with-PDF-Locally: the RAG pipeline of [app.py]

    A shallow embedding of [RAGSystem] ([__init__], [_format_time],
    [_generate_embeddings], [_retrieve], [generate_response]), of
    [remove_tags] and of the chat handler that consumes the generator,
    with the properties the specification states about them.

    Conventions.
    - A Python [str] is a [string]; every character stands for one code
      point below 256.
    - A Python number that may be an [int] or a [float] (the elapsed time)
      is an exact rational [Q]; [//], [%] and [int()] are the exact
      operations, which is what Python computes on ints and on the floats
      that differences of [time.time()] can be.
    - A generator is run to completion: its trace lists, in order, the
      external calls it makes and the values it yields, and its outcome is
      the value of its [return] or the exception it raises.
    - The embedding model, the collection, the language model and the
      clock are collaborators ([Externals]); each may answer or raise.
    - The vector store behind [collection.query] and the text splitter
      are libraries that [app.py] only calls; they are modelled from the
      specification, and every definition of these two models says so. *)

From Stdlib Require Import ZArith QArith Qround Lia Bool.
From Stdlib Require Import List String Ascii DecimalString.
From Stdlib Require Import Sorted Permutation.
Import ListNotations.

Close Scope Q_scope.
Open Scope string_scope.

(** ** Characters and strings *)

Definition nl : string := String "010"%char EmptyString.
Definition dq : string := String "034"%char EmptyString.

(** [str(n)] and [f"{n}"] for a Python [int]. *)
Definition str_int (n : Z) : string := NilZero.string_of_int (Z.to_int n).

(** [sep.join(parts)]. *)
Fixpoint join (sep : string) (parts : list string) : string :=
  match parts with
  | [] => ""
  | [p] => p
  | p :: rest => p ++ sep ++ join sep rest
  end.

(** [needle in hay], as a proposition and as a test. *)
Definition infix_of (needle hay : string) : Prop :=
  exists before after, hay = before ++ needle ++ after.

Fixpoint contains (needle hay : string) : bool :=
  prefix needle hay ||
  match hay with
  | EmptyString => false
  | String _ hay' => contains needle hay'
  end.

(** ** Numbers: [//], [%], [int()] and truthiness *)

Section Numbers.

Local Open Scope Q_scope.

Definition py_floordiv (a b : Q) : Q := inject_Z (Qfloor (a / b)).
Definition py_mod (a b : Q) : Q := a - b * py_floordiv a b.

(** [int(x)] truncates towards zero. *)
Definition py_int (x : Q) : Z :=
  if Qle_bool 0 x then Qfloor x else Qceiling x.

(** A number is true when it is not zero. *)
Definition truthy_num (x : Q) : bool := negb (Qeq_bool x 0).

(** ** [RAGSystem._format_time] *)

Definition _format_time (response_time : Q) : string :=
  let minutes := py_floordiv response_time 60 in
  let seconds := py_mod response_time 60 in
  if truthy_num minutes
  then str_int (py_int minutes) ++ "m " ++ str_int (py_int seconds) ++ "s"
  else "Time: " ++ str_int (py_int seconds) ++ "s".

(** The minutes and seconds the specification names:
    [floor(response_time / 60)] and [floor(response_time mod 60)]. *)
Definition whole_minutes (response_time : Q) : Z := Qfloor (response_time / 60).
Definition whole_seconds (response_time : Q) : Z :=
  Qfloor (response_time - 60 * inject_Z (Qfloor (response_time / 60))).

End Numbers.

(** ** Values, exceptions and effects *)

Set Warnings "-register-all".

(** The values that travel between the generator and its consumer. *)
Inductive PyVal : Type :=
| VNone
| VInt (n : Z)
| VStr (s : string)
| VTuple (items : list PyVal).

(** [isinstance(v, tuple)] and [isinstance(v, str)]. *)
Definition isinstance_tuple (v : PyVal) : bool :=
  match v with VTuple _ => true | _ => false end.

Definition isinstance_str (v : PyVal) : bool :=
  match v with VStr _ => true | _ => false end.

(** An exception: its class and its message ([str(e)]). *)
Record Exn : Type := Exception { exn_class : string; exn_msg : string }.

Definition ValueError (msg : string) : Exn := Exception "ValueError" msg.
Definition IndexError (msg : string) : Exn := Exception "IndexError" msg.
Definition NameError (name : string) : Exn :=
  Exception "NameError" ("name '" ++ name ++ "' is not defined").

Inductive result (A : Type) : Type :=
| Ok (a : A)
| Raised (e : Exn).
Arguments Ok {A} a.
Arguments Raised {A} e.

Definition Embedding : Type := list Q.

(** What [collection.query] answers: one inner list per query embedding. *)
Record QueryResult : Type := mkQueryResult {
  documents : list (list string);
  distances : list (list Q)
}.

(** Everything observable, in the order it happens: calls that leave the
    program, values handed over by [yield], and what the page shows. *)
Inductive Event : Type :=
| NewOllamaLLM (model : string)
| SetupLogging
| NewOllamaEmbeddings (model : string)
| NewPersistentClient (path : string)
| GetOrCreateCollection (name : string)
| LoggerInfo (msg : string)
| EmbedQuery (text : string)
| CollectionQuery (query_embeddings : list Embedding) (n_results : Z)
| GetNumTokens (prompt : string)
| TimeTime
| StreamOpen (prompt : string)
| Yield (v : PyVal)
| StMarkdown (body : string)
| PlaceholderMarkdown (body : string)
| StWrite (body : string)
| AppendMessage (role content : string)
| StRerun.

(** The collaborators behind the pipeline: the embedding model, the
    collection, the language model and the clock. *)
Record Externals : Type := mkExternals {
  embed_query : string -> result Embedding;
  collection_query : list Embedding -> Z -> result QueryResult;
  get_num_tokens : string -> result Z;
  (** the fragments of [stream(prompt)], and the exception that ends the
      stream early when there is one *)
  llm_stream : string -> list string * option Exn;
  (** the successive readings of [time.time()] *)
  clock : nat -> Q
}.

Record World : Type := mkWorld {
  trace : list Event;
  ticks : nat
}.

Definition world0 : World := mkWorld [] 0.

(** Effectful code: it extends the trace, may read the clock, and ends
    with a value or an exception. *)
Definition Eff (A : Type) : Type := World -> World * result A.

Definition ret {A : Type} (a : A) : Eff A := fun w => (w, Ok a).

Definition raise {A : Type} (e : Exn) : Eff A := fun w => (w, Raised e).

Definition bind {A B : Type} (m : Eff A) (k : A -> Eff B) : Eff B :=
  fun w =>
    match m w with
    | (w', Ok a) => k a w'
    | (w', Raised e) => (w', Raised e)
    end.

Notation "x <- m ;; k" := (bind m (fun x => k))
  (at level 61, m at next level, right associativity).
Notation "m ;; k" := (bind m (fun _ => k))
  (at level 61, right associativity).

Definition emit (e : Event) : Eff unit :=
  fun w => (mkWorld (trace w ++ [e]) (ticks w), Ok tt).

Definition lift {A : Type} (r : result A) : Eff A := fun w => (w, r).

(** A list is true when it is not empty. *)
Definition truthy_list {A : Type} (l : list A) : bool :=
  match l with [] => false | _ :: _ => true end.

(** [l[i]] for an index that is not negative. *)
Definition subscript {A : Type} (l : list A) (i : nat) : Eff A :=
  match nth_error l i with
  | Some a => ret a
  | None => raise (IndexError "list index out of range")
  end.

(** [yield v] *)
Definition yield (v : PyVal) : Eff unit := emit (Yield v).

(** ** [RAGSystem] *)

Record RAGSystem : Type := mkRAGSystem {
  collection_name : string;
  db_path : string;
  ollama_model : string;
  n_results : Z
}.

Section Pipeline.

Variable ext : Externals.

(** [time.time()] *)
Definition time_time : Eff Q :=
  fun w => (mkWorld (trace w ++ [TimeTime]) (S (ticks w)),
            Ok (clock ext (ticks w))).

(** [RAGSystem.__init__] *)
Definition __init__ (collection_name db_path ollama_model : string)
    (n_results : Z) : Eff RAGSystem :=
  let self := mkRAGSystem collection_name db_path ollama_model n_results in
  emit (NewOllamaLLM ollama_model) ;;
  if (collection_name =? "")%string
  then raise (ValueError "'collection_name' parameter is required.")
  else
    emit SetupLogging ;;
    emit (NewOllamaEmbeddings "mxbai-embed-large:latest") ;;
    emit (NewPersistentClient db_path) ;;
    emit (GetOrCreateCollection collection_name) ;;
    emit (LoggerInfo "*** RAGSystem initialized ***") ;;
    ret self.

(** [RAGSystem._generate_embeddings] *)
Definition _generate_embeddings (self : RAGSystem) (text : string)
    : Eff Embedding :=
  emit (EmbedQuery text) ;;
  lift (embed_query ext text).

(** [RAGSystem._retrieve] *)
Definition _retrieve (self : RAGSystem) (user_text : string)
    : Eff (list string) :=
  embedding <- _generate_embeddings self user_text ;;
  emit (CollectionQuery [embedding] (n_results self)) ;;
  results <- lift (collection_query ext [embedding] (n_results self)) ;;
  if negb (truthy_list (documents results))
  then ret []
  else subscript (documents results) 0.

End Pipeline.

(** ** [RAGSystem.generate_response] *)

Definition indent8 : string := "        ".

(** The f-string that builds the prompt. *)
Definition prompt_of (context query : string) : string :=
  nl ++
  indent8 ++ "You are an AI assistant specialized in answering questions based **only** on the provided context.  " ++ nl ++
  indent8 ++ "The context is structured with sections separated by `-----`.  " ++ nl ++
  nl ++
  indent8 ++ "### **Context:**  " ++ nl ++
  indent8 ++ "'''  " ++ nl ++
  indent8 ++ context ++ "  " ++ nl ++
  indent8 ++ "'''  " ++ nl ++
  nl ++
  indent8 ++ "### **Question:**  " ++ nl ++
  indent8 ++ dq ++ query ++ dq ++ "  " ++ nl ++
  nl ++
  indent8 ++ "### **Instructions:**  " ++ nl ++
  indent8 ++ "- Answer concisely and accurately using only the given context.  " ++ nl ++
  indent8 ++ "- Put what you find from the context without summarizing." ++ nl ++
  indent8 ++ "- If the answer is unclear or missing, state: " ++ dq ++
    "The provided context does not contain enough information." ++ dq ++ "  " ++ nl ++
  nl ++
  indent8 ++ "### **Answer:**" ++ nl ++
  indent8.

(** The delimiter between passages. *)
Definition passage_delimiter : string := nl ++ "-----" ++ nl.

Definition no_information : string := "No relevant information found.".

Section Generation.

Variable ext : Externals.

(** The body of [for chunk in self.ollama_llm.stream(prompt)]. *)
Fixpoint stream_loop (chunks : list string) (streamed_response : string)
    : Eff string :=
  match chunks with
  | [] => ret streamed_response
  | chunk :: rest =>
      let streamed_response := streamed_response ++ chunk in
      yield (VStr streamed_response) ;;
      stream_loop rest streamed_response
  end.

(** The generator, run until it stops. *)
Definition generate_response (self : RAGSystem) (query : string)
    : Eff PyVal :=
  retrieved_docs <- _retrieve ext self query ;;
  if negb (truthy_list retrieved_docs)
  then ret (VStr no_information)
  else
    let context := join passage_delimiter retrieved_docs in
    let prompt := prompt_of context query in
    emit (LoggerInfo prompt) ;;
    emit (GetNumTokens prompt) ;;
    token_count <- lift (get_num_tokens ext prompt) ;;
    start_time <- time_time ext ;;
    emit (StreamOpen prompt) ;;
    streamed_response <- stream_loop (fst (llm_stream ext prompt)) "" ;;
    match snd (llm_stream ext prompt) with
    | Some e => raise e
    | None =>
        end_time <- time_time ext ;;
        let response_time := (end_time - start_time)%Q in
        yield (VTuple [VInt token_count; VStr (_format_time response_time)]) ;;
        ret VNone
    end.

End Generation.

(** The values a finished run handed over by [yield], in order. *)
Fixpoint yields (t : list Event) : list PyVal :=
  match t with
  | [] => []
  | Yield v :: t' => v :: yields t'
  | _ :: t' => yields t'
  end.

(** The calls that reach the Generation Engine. *)
Definition is_engine_call (e : Event) : bool :=
  match e with
  | GetNumTokens _ | StreamOpen _ => true
  | _ => false
  end.

(** ** [remove_tags] *)

(** The characters [str.strip()] removes, among the code points below 256. *)
Definition is_space (c : ascii) : bool :=
  let n := nat_of_ascii c in
  ((9 <=? n)%nat && (n <=? 13)%nat) || ((28 <=? n)%nat && (n <=? 32)%nat)
  || (n =? 133)%nat || (n =? 160)%nat.

Fixpoint lstrip (s : string) : string :=
  match s with
  | EmptyString => EmptyString
  | String c s' => if is_space c then lstrip s' else s
  end.

Fixpoint rstrip (s : string) : string :=
  match s with
  | EmptyString => EmptyString
  | String c s' =>
      match rstrip s' with
      | EmptyString => if is_space c then EmptyString else String c EmptyString
      | kept => String c kept
      end
  end.

Definition strip (s : string) : string := rstrip (lstrip s).

(** [s[n:]] *)
Fixpoint drop (n : nat) (s : string) : string :=
  match n, s with
  | O, _ => s
  | S n', String _ s' => drop n' s'
  | S _, EmptyString => EmptyString
  end.

(** [hay.find(needle)], with [None] for -1. *)
Fixpoint find (needle hay : string) : option nat :=
  if prefix needle hay then Some O
  else match hay with
       | EmptyString => None
       | String _ hay' => option_map S (find needle hay')
       end.

Definition open_tag : string := "<think>".
Definition close_tag : string := "</think>".

(** The length of the match of [<think>[\s\S]*?</think>] that starts at
    the first character of [s], when there is one: the lazy star stops at
    the first closing tag. *)
Definition match_think (s : string) : option nat :=
  if prefix open_tag s
  then match find close_tag (drop (length open_tag) s) with
       | Some j => Some (length open_tag + j + length close_tag)%nat
       | None => None
       end
  else None.

(** [re.sub(r"<think>[\s\S]*?</think>", "", s)]: matches are taken from
    the left and do not overlap; [skip] counts the characters of the
    current match that are still to be dropped. *)
Fixpoint sub_think (s : string) (skip : nat) : string :=
  match s with
  | EmptyString => EmptyString
  | String c s' =>
      match skip with
      | S k => sub_think s' k
      | O =>
          match match_think s with
          | Some n => sub_think s' (pred n)
          | None => String c (sub_think s' O)
          end
      end
  end.

Definition remove_tags (text : string) : string := strip (sub_think text 0).

(** ** [str()] and [repr()] of the values *)

Definition hex_digit (n : nat) : string :=
  String (ascii_of_nat (if (n <? 10)%nat then (48 + n)%nat else (87 + n)%nat))
         EmptyString.

Definition is_printable (c : ascii) : bool :=
  let n := nat_of_ascii c in
  ((32 <=? n)%nat && (n <=? 126)%nat) || ((161 <=? n)%nat && negb (n =? 173)%nat).

Definition repr_char (quote c : ascii) : string :=
  let n := nat_of_ascii c in
  if (n =? 92)%nat || Ascii.eqb c quote
  then String "\"%char (String c EmptyString)
  else if (n =? 9)%nat then "\t"
  else if (n =? 10)%nat then "\n"
  else if (n =? 13)%nat then "\r"
  else if is_printable c then String c EmptyString
  else "\x" ++ hex_digit (n / 16)%nat ++ hex_digit (n mod 16)%nat.

Fixpoint repr_chars (quote : ascii) (s : string) : string :=
  match s with
  | EmptyString => EmptyString
  | String c s' => repr_char quote c ++ repr_chars quote s'
  end.

Definition repr_str (s : string) : string :=
  let quote :=
    if contains "'" s && negb (contains dq s) then "034"%char else "'"%char in
  String quote (repr_chars quote s) ++ String quote EmptyString.

Fixpoint py_repr (v : PyVal) : string :=
  match v with
  | VNone => "None"
  | VInt n => str_int n
  | VStr s => repr_str s
  | VTuple items =>
      match items with
      | [only] => "(" ++ py_repr only ++ ",)"
      | _ => "(" ++ join ", " (map py_repr items) ++ ")"
      end
  end.

Definition py_str (v : PyVal) : string :=
  match v with
  | VStr s => s
  | _ => py_repr v
  end.

(** ** The chat handler *)

Definition indent16 : string := "                ".

(** The f-string that builds the stored assistant message. *)
Definition response_of (answer token_count response_time : string) : string :=
  nl ++
  indent16 ++ answer ++ nl ++
  nl ++
  indent16 ++ nl ++ "----" ++ nl ++
  indent16 ++ "Token Count: " ++ token_count ++ " | Response Time: " ++
    response_time ++ nl ++
  indent16.

(** The names the loop of the handler assigns; [None] is a name that is
    not bound yet. *)
Record Names : Type := mkNames {
  streamed_response : PyVal;
  token_count : option PyVal;
  response_time : option PyVal
}.

(** Reading a name. *)
Definition load (name : string) (slot : option PyVal) : Eff PyVal :=
  match slot with
  | Some v => ret v
  | None => raise (NameError name)
  end.

(** [token_count, response_time = chunk], for a chunk that is a tuple. *)
Definition unpack2 (chunk : PyVal) : Eff (PyVal * PyVal) :=
  match chunk with
  | VTuple [a; b] => ret (a, b)
  | VTuple (_ :: _ :: _ :: _) =>
      raise (ValueError "too many values to unpack (expected 2)")
  | VTuple items =>
      raise (ValueError ("not enough values to unpack (expected 2, got "
                         ++ str_int (Z.of_nat (List.length items)) ++ ")"))
  | _ => raise (Exception "TypeError" "cannot unpack non-iterable object")
  end.

(** The body of [for chunk in rag_system.generate_response(prompt)]. *)
Definition on_chunk (chunk : PyVal) (names : Names) : Eff Names :=
  if isinstance_tuple chunk
  then
    pair <- unpack2 chunk ;;
    ret (mkNames (streamed_response names) (Some (fst pair)) (Some (snd pair)))
  else
    emit (PlaceholderMarkdown (py_str chunk)) ;;
    ret (mkNames chunk (token_count names) (response_time names)).

(** The loop, driven by what the generator does: its calls pass through,
    every value it yields runs the body, and an exception of the body
    leaves the generator where it stands. *)
Fixpoint consume (produced : list Event) (names : Names) : Eff Names :=
  match produced with
  | [] => ret names
  | Yield chunk :: rest =>
      emit (Yield chunk) ;;
      names' <- on_chunk chunk names ;;
      consume rest names'
  | call :: rest =>
      emit call ;;
      consume rest names
  end.

(** The argument [re.sub] accepts. *)
Definition as_text (v : PyVal) : Eff string :=
  match v with
  | VStr s => ret s
  | _ => raise (Exception "TypeError" "expected string or bytes-like object")
  end.

Section Chat.

Variable ext : Externals.
Variable rag_system : RAGSystem.

(** The [try] block of the handler. *)
Definition chat_try (prompt : string) : Eff unit :=
  fun w =>
    let '(wg, outcome) :=
      generate_response ext rag_system prompt (mkWorld [] (ticks w)) in
    (names <- consume (trace wg) (mkNames (VStr "") None None) ;;
     _ <- lift outcome ;;
     tc <- load "token_count" (token_count names) ;;
     rt <- load "response_time" (response_time names) ;;
     emit (StWrite ("Token Count: " ++ py_str tc ++ ", Response Time: "
                    ++ py_str rt)) ;;
     text <- as_text (streamed_response names) ;;
     emit (AppendMessage "assistant"
             (response_of (remove_tags text) (py_str tc) (py_str rt))))
      (mkWorld (trace w) (ticks wg)).

(** What happens once the user has sent [prompt]. *)
Definition chat_handler (prompt : string) : Eff unit :=
  emit (AppendMessage "user" prompt) ;;
  emit (StMarkdown prompt) ;;
  fun w =>
    match chat_try prompt w with
    | (w', Ok tt) => (w', Ok tt)
    | (w', Raised e) =>
        (emit (AppendMessage "assistant" ("Error: " ++ exn_msg e)) ;;
         emit StRerun) w'
    end.

End Chat.

(** What the placeholder showed, in order. *)
Fixpoint rendered (t : list Event) : list string :=
  match t with
  | [] => []
  | PlaceholderMarkdown body :: t' => body :: rendered t'
  | _ :: t' => rendered t'
  end.

(** The messages stored for the assistant, in order. *)
Fixpoint assistant_messages (t : list Event) : list string :=
  match t with
  | [] => []
  | AppendMessage role content :: t' =>
      if (role =? "assistant")%string
      then content :: assistant_messages t'
      else assistant_messages t'
  | _ :: t' => assistant_messages t'
  end.

(** ** The page's pipeline *)

(** [rag_system = RAGSystem(collection_name="pdf_content", ...)] *)
Definition page_rag_system (selected_model : string) : RAGSystem :=
  mkRAGSystem "pdf_content" "PDF_chroma_db" selected_model 5.

(** ** The vector store

    [app.py] reaches the store only through [collection.query]; the store
    itself is chromadb's. Its contents and its query follow sections 3 and
    4.3 of the specification. *)

(** Modelled from the spec: a Chunk of a Collection, its text and its
    vector (chromadb's stored entry). *)
Record Chunk : Type := mkChunk {
  chunk_text : string;
  chunk_vector : Embedding
}.

Section VectorStore.

(** The distance metric of the collection. *)
Variable metric : Embedding -> Embedding -> Q.

(** Modelled from the spec: the distance from the query vector to a stored
    chunk (computed inside chromadb's [Collection.query]). *)
Definition distance_to (v : Embedding) (c : Chunk) : Q :=
  metric v (chunk_vector c).

(** Modelled from the spec: the ordering inside [query] (chromadb's
    [Collection.query]) - insertion before the first chunk that is not
    nearer, so that a chunk added earlier stays ahead of later chunks at
    the same distance. *)
Fixpoint insert_near (v : Embedding) (c : Chunk) (sorted : list Chunk)
    : list Chunk :=
  match sorted with
  | [] => [c]
  | d :: rest =>
      if Qle_bool (distance_to v c) (distance_to v d)
      then c :: d :: rest
      else d :: insert_near v c rest
  end.

(** Modelled from the spec: the chunks of the collection ordered by
    distance for [query] (chromadb's [Collection.query]), ties in
    insertion order. *)
Fixpoint by_distance (v : Embedding) (chunks : list Chunk) : list Chunk :=
  match chunks with
  | [] => []
  | c :: rest => insert_near v c (by_distance v rest)
  end.

(** Modelled from the spec: [query(handle, vector, k)] of the vector store
    (chromadb's [Collection.query], which [app.py] only calls): the [k]
    nearest chunks by distance, ties in insertion order, and all of them
    when the collection holds fewer than [k]. *)
Definition nearest (chunks : list Chunk) (v : Embedding) (k : Z)
    : list Chunk :=
  firstn (Z.to_nat k) (by_distance v chunks).

(** Modelled from the spec: the answer of chromadb's [Collection.query]
    for a list of query embeddings, one list of texts and one of
    distances for each. *)
Definition store_query (chunks : list Chunk) (query_embeddings : list Embedding)
    (k : Z) : result QueryResult :=
  Ok (mkQueryResult
        (map (fun v => map chunk_text (nearest chunks v k)) query_embeddings)
        (map (fun v => map (distance_to v) (nearest chunks v k))
             query_embeddings)).

End VectorStore.

(** Modelled from the spec: ascending distance to the query vector, the
    order of the results of [query] (chromadb's [Collection.query]). *)
Definition nearer_or_equal (metric : Embedding -> Embedding -> Q)
    (v : Embedding) (c d : Chunk) : Prop :=
  (distance_to metric v c <= distance_to metric v d)%Q.

(** The collaborators of a pipeline whose collection is the store above. *)
Definition with_store (metric : Embedding -> Embedding -> Q)
    (chunks : list Chunk) (ext : Externals) : Externals :=
  mkExternals (embed_query ext) (store_query metric chunks)
              (get_num_tokens ext) (llm_stream ext) (clock ext).

(** ** Traces of the generator and of the page *)

(** The strings the loop yields when it starts from [acc]. *)
Fixpoint running (acc : string) (chunks : list string) : list string :=
  match chunks with
  | [] => []
  | chunk :: rest => (acc ++ chunk) :: running (acc ++ chunk) rest
  end.

(** What [_retrieve] adds to the trace: the embedding call, and the
    collection query when the embedding came back. *)
Definition retrieval_calls (ext : Externals) (self : RAGSystem)
    (query : string) : list Event :=
  match embed_query ext query with
  | Ok embedding =>
      [EmbedQuery query; CollectionQuery [embedding] (n_results self)]
  | Raised _ => [EmbedQuery query]
  end.

(** The page events of the text updates: each string is yielded and then
    shown as it is. *)
Definition shown (texts : list string) : list Event :=
  flat_map (fun s => [Yield (VStr s); PlaceholderMarkdown s]) texts.

(** ** What the specification says the caller observes *)

(** [f1 + ... + fn] *)
Definition concat_all (fragments : list string) : string :=
  fold_right append "" fragments.

(** The accumulated strings [f1], [f1 + f2], ..., [f1 + ... + fn]: the
    i-th one concatenates the first i fragments. *)
Definition accumulated (fragments : list string) : list string :=
  map (fun i => concat_all (firstn i fragments))
      (seq 1 (List.length fragments)).

(** The terminal record: token count and formatted elapsed time. *)
Definition metadata (token_count : Z) (elapsed : Q) : PyVal :=
  VTuple [VInt token_count; VStr (_format_time elapsed)].

(** What the retrieval step hands to [generate_response]. *)
Definition retrieved (ext : Externals) (self : RAGSystem) (query : string)
    : result (list string) :=
  snd (_retrieve ext self query world0).

(** The prompts the Generation Engine was called with, in order. *)
Fixpoint engine_prompts (t : list Event) : list string :=
  match t with
  | [] => []
  | GetNumTokens prompt :: t' => prompt :: engine_prompts t'
  | StreamOpen prompt :: t' => prompt :: engine_prompts t'
  | _ :: t' => engine_prompts t'
  end.

(** The labeled sections of the prompt. *)
Definition context_section (passages : list string) : string :=
  "### **Context:**  " ++ nl ++
  indent8 ++ "'''  " ++ nl ++
  indent8 ++ join passage_delimiter passages ++ "  " ++ nl ++
  indent8 ++ "'''".

Definition question_section (query : string) : string :=
  "### **Question:**  " ++ nl ++
  indent8 ++ dq ++ query ++ dq.

Definition fallback_sentence : string :=
  "The provided context does not contain enough information.".

Definition instruction_block : string :=
  "### **Instructions:**  " ++ nl ++
  indent8 ++ "- Answer concisely and accurately using only the given context.  " ++ nl ++
  indent8 ++ "- Put what you find from the context without summarizing." ++ nl ++
  indent8 ++ "- If the answer is unclear or missing, state: " ++ dq ++
    fallback_sentence ++ dq.

(** ** A scenario: the three chunks of the specification *)

(** Squared Euclidean distance. *)
Definition squared_l2 (u v : Embedding) : Q :=
  fold_right Qplus 0%Q
    (map (fun p => ((fst p - snd p) * (fst p - snd p))%Q) (combine u v)).

Definition paris_chunks : list Chunk :=
  [ mkChunk "Paris is the capital of France." [1%Q; 0%Q];
    mkChunk "It is known for the Eiffel Tower." [0%Q; 1%Q];
    mkChunk "The Seine river runs through it." [1%Q; 1%Q] ].

(** The passages found for the question, with their distances. *)
Definition paris_found : list (string * Q) :=
  [ ("It is known for the Eiffel Tower.", (1 # 4)%Q);
    ("Paris is the capital of France.", (5 # 4)%Q);
    ("The Seine river runs through it.", (5 # 4)%Q) ].

(** Collaborators that always answer: every text embeds to the same
    vector, the collection answers one query embedding with [found] (an
    empty collection answers with one empty list), the token count is the
    length of the prompt, the stream gives [fragments], and the clock
    advances 75 seconds per reading. *)
Definition scenario (found : list (string * Q)) (fragments : list string)
    : Externals :=
  mkExternals
    (fun _ => Ok [0%Q; (1 # 2)%Q])
    (fun _ _ => Ok (mkQueryResult [map fst found] [map snd found]))
    (fun prompt => Ok (Z.of_nat (length prompt)))
    (fun _ => (fragments, None))
    (fun n => (inject_Z (Z.of_nat n) * 75)%Q).

(** The same collaborators with an embedding model that cannot be reached. *)
Definition scenario_unreachable (found : list (string * Q))
    (fragments : list string) : Externals :=
  mkExternals
    (fun _ => Raised (Exception "ConnectionError" "embedding model unreachable"))
    (fun _ _ => Ok (mkQueryResult [map fst found] [map snd found]))
    (fun prompt => Ok (Z.of_nat (length prompt)))
    (fun _ => (fragments, None))
    (fun n => (inject_Z (Z.of_nat n) * 75)%Q).

Definition paris_question : string := "What is Paris known for?".

(** ** How the handler treats a yielded value *)

(** The value is a string, and the handler shows it and keeps it as the
    response so far. *)
Definition shown_as_text (v : PyVal) : Prop :=
  exists s, v = VStr s /\
    forall names w,
      on_chunk v names w =
        (mkWorld (trace w ++ [PlaceholderMarkdown s]) (ticks w),
         Ok (mkNames v (token_count names) (response_time names))).

(** The value is the pair of token count and formatted time, and the
    handler binds the two names without touching the page. *)
Definition taken_as_metadata (v : PyVal) : Prop :=
  exists tc elapsed, v = VTuple [VInt tc; VStr elapsed] /\
    forall names w,
      on_chunk v names w =
        (w, Ok (mkNames (streamed_response names)
                        (Some (VInt tc)) (Some (VStr elapsed)))).

(** The calls that create or open the persistent collection. *)
Definition opens_store (e : Event) : bool :=
  match e with
  | NewPersistentClient _ | GetOrCreateCollection _ => true
  | _ => false
  end.

(** ** The text chunker

    [app.py] builds [RecursiveCharacterTextSplitter(chunk_size=2000,
    chunk_overlap=200)] and calls [split_text]; the splitter itself is
    langchain's. It follows section 4.1 of the specification. *)

(** Modelled from the spec: the number of characters held by the pieces of
    a chunk in the making (inside langchain's splitter). *)
Definition total_length (pieces : list string) : nat :=
  fold_right (fun p n => (length p + n)%nat) 0%nat pieces.

(** Modelled from the spec: the split at one separator (inside langchain's
    splitter) - the pieces of [s], cut in front of every occurrence of [sep]: a
    separator opens the piece that follows it, so that no character is
    lost. [skip] counts the characters of the separator just met that are
    still to be passed. *)
Fixpoint pieces (sep s : string) (skip : nat) : list string :=
  match s with
  | EmptyString => [EmptyString]
  | String c s' =>
      let cut := (skip =? 0)%nat && negb (sep =? "")%string && prefix sep s in
      let skip' := if cut then pred (length sep) else pred skip in
      match pieces sep s' skip' with
      | [] => [String c EmptyString]
      | p :: ps =>
          if cut then EmptyString :: String c p :: ps else String c p :: ps
      end
  end.

(** Modelled from the spec: a piece that holds at least one character
    (inside langchain's splitter). *)
Definition nonempty (s : string) : bool := negb (s =? "")%string.

(** Modelled from the spec: [text] cut at [sep], without the empty pieces
    (inside langchain's splitter). *)
Definition split_at (sep text : string) : list string :=
  filter nonempty (pieces sep text 0).

(** Modelled from the spec: the character level, the finest split (inside
    langchain's splitter) - the characters of [text], one string each. *)
Fixpoint characters (text : string) : list string :=
  match text with
  | EmptyString => []
  | String c text' => String c EmptyString :: characters text'
  end.

(** Modelled from the spec: the overlap between consecutive chunks (inside
    langchain's splitter) - after a chunk is emitted, pieces leave the
    window from the front until what stays is no longer than [overlap]
    and leaves [room] for the next piece. *)
Fixpoint shrink (overlap room : nat) (window : list string) : list string :=
  match window with
  | [] => []
  | _ :: rest =>
      if (overlap <? total_length window)%nat
         || (room <? total_length window)%nat
      then shrink overlap room rest
      else window
  end.

(** Modelled from the spec: the chunk emitted for a window that holds
    something (inside langchain's splitter). *)
Definition emit_chunk (window : list string) : list string :=
  match window with
  | [] => []
  | _ :: _ => [concat_all window]
  end.

(** Modelled from the spec: the gathering of pieces into chunks (inside
    langchain's splitter) - a piece joins the window while the chunk stays
    within [chunk_size]; otherwise the window is emitted and its tail, up
    to [overlap] characters, opens the next chunk. *)
Fixpoint merge (chunk_size overlap : nat) (todo window : list string)
    : list string :=
  match todo with
  | [] => emit_chunk window
  | piece :: rest =>
      if (chunk_size <? total_length window + length piece)%nat
      then (emit_chunk window
            ++ merge chunk_size overlap rest
                 (shrink overlap (chunk_size - length piece) window
                  ++ [piece]))%list
      else merge chunk_size overlap rest (window ++ [piece])
  end.

(** Modelled from the spec: the fallback to finer splitting (inside
    langchain's splitter) - of the pieces cut at one separator, in order,
    those that fit are gathered and merged, and one that still exceeds
    [chunk_size] goes, alone, to the finer separators. *)
Fixpoint regroup (chunk_size overlap : nat)
    (split_finer : string -> list string) (todo good : list string)
    : list string :=
  match todo with
  | [] => merge chunk_size overlap good []
  | piece :: rest =>
      if (length piece <=? chunk_size)%nat
      then regroup chunk_size overlap split_finer rest (good ++ [piece])%list
      else (merge chunk_size overlap good []
            ++ split_finer piece
            ++ regroup chunk_size overlap split_finer rest [])%list
  end.

(** Modelled from the spec: [split(text, chunk_size, overlap)] of the Text
    Chunker (langchain's [RecursiveCharacterTextSplitter], which [app.py]
    only instantiates and calls). The separators are tried from the
    largest boundary to the finest; a piece goes to the finer separators
    only when it still exceeds [chunk_size], and below the last separator
    the text is split into characters. *)
Fixpoint split (separators : list string) (chunk_size overlap : nat)
    (text : string) : list string :=
  match separators with
  | [] => merge chunk_size overlap (characters text) []
  | sep :: finer =>
      if contains sep text && nonempty sep
      then regroup chunk_size overlap (split finer chunk_size overlap)
                   (split_at sep text) []
      else split finer chunk_size overlap text
  end.

(** Modelled from the spec: a chunk of at most [chunk_size] characters. *)
Definition fits (chunk_size : nat) (s : string) : Prop :=
  (length s <= chunk_size)%nat.

(** Modelled from the spec: the separators of the splitter (langchain's
    defaults, which [app.py] does not set) - paragraph, line and word
    boundaries; characters come last. *)
Definition page_separators : list string := [nl ++ nl; nl; " "].

(** [RecursiveCharacterTextSplitter(chunk_size=2000, chunk_overlap=200)
    .split_text(text)] *)
Definition split_text (text : string) : list string :=
  split page_separators 2000 200 text.

(** * Further code of [app.py] *)

(** A string is true when it is not empty. *)
Definition truthy_str (s : string) : bool := negb (s =? "")%string.

(** ** Paths and suffixes

    [os.path] is taken as [posixpath]: the separator is [/]. *)

(** [s.endswith(suffix)] *)
Fixpoint ends_with (suffix s : string) : bool :=
  (s =? suffix)%string ||
  match s with
  | EmptyString => false
  | String _ s' => ends_with suffix s'
  end.

(** [s.rfind(c)] for a character, with [None] for -1. *)
Fixpoint rfind_char (c : ascii) (s : string) : option nat :=
  match s with
  | EmptyString => None
  | String d s' =>
      match rfind_char c s' with
      | Some i => Some (S i)
      | None => if Ascii.eqb d c then Some O else None
      end
  end.

(** [s[:n]] *)
Fixpoint take (n : nat) (s : string) : string :=
  match n, s with
  | O, _ => EmptyString
  | S n', String c s' => String c (take n' s')
  | S _, EmptyString => EmptyString
  end.

(** [os.path.basename(p)]: what follows the last separator. *)
Definition basename (p : string) : string :=
  match rfind_char "/" p with
  | Some i => drop (S i) p
  | None => p
  end.

(** Some character of [s] is not a dot. *)
Fixpoint has_non_dot (s : string) : bool :=
  match s with
  | EmptyString => false
  | String c s' => negb (Ascii.eqb c ".") || has_non_dot s'
  end.

(** [os.path.splitext(p)[0]]: [p] without its extension. The extension
    starts at the last dot of the last component, unless only dots come
    before it in that component. *)
Definition splitext_root (p : string) : string :=
  match rfind_char "." p with
  | None => p
  | Some dot =>
      let start :=
        match rfind_char "/" p with
        | Some i => S i
        | None => O
        end in
      if (start <=? dot)%nat && has_non_dot (take (dot - start) (drop start p))
      then take dot p
      else p
  end.

(** [os.path.join(a, b)] *)
Definition path_join (a b : string) : string :=
  if prefix "/" b then b
  else if negb (truthy_str a) || ends_with "/" a then a ++ b
  else a ++ "/" ++ b.

(** ** [Convert2Markdown] *)

Module Convert2Markdown.

Section Numbers.

Local Open Scope Q_scope.

(** [Convert2Markdown._format_time] *)
Definition _format_time (response_time : Q) : string :=
  let hours := py_floordiv response_time 3600 in
  let minutes := py_floordiv (py_mod response_time 3600) 60 in
  let seconds := py_mod response_time 60 in
  if truthy_num hours
  then str_int (py_int hours) ++ "h " ++ str_int (py_int minutes) ++ "m "
       ++ str_int (py_int seconds) ++ "s"
  else if truthy_num minutes
  then str_int (py_int minutes) ++ "m " ++ str_int (py_int seconds) ++ "s"
  else "Time: " ++ str_int (py_int seconds) ++ "s".

End Numbers.

(** The index of the first occurrence of [needle] in [hay] that is reached
    without passing a newline: where a lazy [.*?] followed by [needle]
    stops, since [.] matches every character but the newline. *)
Fixpoint find_on_line (needle hay : string) : option nat :=
  if prefix needle hay then Some O
  else match hay with
       | EmptyString => None
       | String c hay' =>
           if Ascii.eqb c "010" then None
           else option_map S (find_on_line needle hay')
       end.

(** The length of the match of [!\[.*?\]\(.*?\)] that starts at the
    first character of [s], when there is one: the first [.*?] stops at
    the first [](] of the line and the second at the first [)] after it.
    A later [](] cannot succeed where the first one fails, since a [)]
    that follows it on the line follows the first one too. *)
Definition match_image (s : string) : option nat :=
  if prefix "![" s
  then match find_on_line "](" (drop 2 s) with
       | Some i =>
           match find_on_line ")" (drop (2 + i + 2) s) with
           | Some j => Some (2 + i + 2 + j + 1)%nat
           | None => None
           end
       | None => None
       end
  else None.

(** [re.sub(r'!\[.*?\]\(.*?\)', '', s)]: matches are taken from the
    left and do not overlap; [skip] counts the characters of the current
    match that are still to be dropped. *)
Fixpoint sub_images (s : string) (skip : nat) : string :=
  match s with
  | EmptyString => EmptyString
  | String c s' =>
      match skip with
      | S k => sub_images s' k
      | O =>
          match match_image s with
          | Some n => sub_images s' (pred n)
          | None => String c (sub_images s' O)
          end
      end
  end.

(** [Convert2Markdown._markdown_remove_images] *)
Definition _markdown_remove_images (markdown : string) : string :=
  sub_images markdown 0.

(** What [marker_converter] returns: the rendered document. *)
Record Rendered : Type := mkRendered { rendered_markdown : string }.

(** The effects of the conversion, in the order they happen. *)
Inductive FsEvent : Type :=
| MakeDirs (path : string)
| Convert (input_pdf : string)
| SaveOutput (directory name : string)
| ReadFile (path : string)
| WriteFile (path content : string)
| ListDir (directory : string)
| Remove (path : string)
| Print (text : string).

(** The operating system and the library behind the conversion; each
    call may answer or raise. *)
Record Tools : Type := mkTools {
  path_exists : string -> bool;
  makedirs : string -> result unit;
  save_output : Rendered -> string -> string -> result unit;
  read_text : string -> result string;
  write_text : string -> string -> result unit;
  listdir : string -> result (list string);
  remove : string -> result unit;
  (** the successive readings of [time.time()] *)
  now : nat -> Q
}.

(** Code with effects on the disk: the events it caused, and its value or
    the exception it raised. *)
Definition Fs (A : Type) : Type := (list FsEvent * result A)%type.

Definition fs_ret {A : Type} (a : A) : Fs A := ([], Ok a).

Definition fs_raise {A : Type} (e : Exn) : Fs A := ([], Raised e).

Definition fs_bind {A B : Type} (m : Fs A) (k : A -> Fs B) : Fs B :=
  match m with
  | (t, Ok a) => let (t', r) := k a in ((t ++ t')%list, r)
  | (t, Raised e) => (t, Raised e)
  end.

(** One call: its event and its outcome. *)
Definition fs_call {A : Type} (event : FsEvent) (outcome : result A) : Fs A :=
  ([event], outcome).

(** [try: body except Exception as e: handler(e)] *)
Definition fs_try {A : Type} (body : Fs A) (handler : Exn -> Fs A) : Fs A :=
  match body with
  | (t, Raised e) => let (t', r) := handler e in ((t ++ t')%list, r)
  | done => done
  end.

(** [for x in xs: body(x)] *)
Fixpoint fs_for {A : Type} (xs : list A) (body : A -> Fs unit) : Fs unit :=
  match xs with
  | [] => fs_ret tt
  | x :: rest => fs_bind (body x) (fun _ => fs_for rest body)
  end.

Section Conversion.

Variable tools : Tools.

(** [Convert2Markdown._remove_images_from_directory] *)
Definition _remove_images_from_directory (directory extension : string)
    : Fs unit :=
  fs_bind (fs_call (ListDir directory) (listdir tools directory))
    (fun files =>
       fs_for files
         (fun file =>
            if ends_with extension file
            then fs_call (Remove (path_join directory file))
                         (remove tools (path_join directory file))
            else fs_ret tt)).

(** [Convert2Markdown._load_file] *)
Definition _load_file (file_path : string) : Fs string :=
  fs_call (ReadFile file_path) (read_text tools file_path).

(** [Convert2Markdown._save_file] *)
Definition _save_file (file_path content : string) : Fs unit :=
  fs_call (WriteFile file_path content) (write_text tools file_path content).

(** [Convert2Markdown.pdf_to_markdown]; [marker_converter] is [None] or
    the converter, a function from the path of the PDF. *)
Definition pdf_to_markdown
    (marker_converter : option (string -> result Rendered))
    (input_pdf output_directory : string) (remove_images : bool)
    : Fs unit :=
  match marker_converter with
  | None => fs_raise (ValueError "marker_converter instance is required.")
  | Some convert =>
      if negb (truthy_str input_pdf) || negb (truthy_str output_directory)
      then fs_raise (ValueError
                       "Both input PDF path and output directory are required.")
      else if negb (path_exists tools input_pdf)
      then fs_raise (Exception "FileNotFoundError"
                       ("Input PDF '" ++ input_pdf ++ "' does not exist."))
      else
        fs_bind (fs_call (MakeDirs output_directory)
                         (makedirs tools output_directory))
          (fun _ =>
             let base_filename := splitext_root (basename input_pdf) in
             let markdown_path :=
               path_join output_directory (base_filename ++ "_pdf.md") in
             let start_time := now tools 0 in
             fs_try
               (fs_bind (fs_call (Convert input_pdf) (convert input_pdf))
                  (fun rendered =>
               fs_bind (fs_call (SaveOutput output_directory
                                            (base_filename ++ "_pdf"))
                                (save_output tools rendered output_directory
                                             (base_filename ++ "_pdf")))
                  (fun _ =>
               fs_bind
                 (if remove_images
                  then
                    fs_bind (_load_file markdown_path)
                      (fun markdown_content =>
                    fs_bind (_save_file markdown_path
                               (_markdown_remove_images markdown_content))
                      (fun _ =>
                    _remove_images_from_directory output_directory ".jpeg"))
                  else fs_ret tt)
                  (fun _ =>
               fs_call
                 (Print ("Markdown saved: '" ++ markdown_path
                         ++ "', Conversion completed in "
                         ++ _format_time (now tools 1 - start_time)%Q
                         ++ " seconds"))
                 (Ok tt)))))
               (fun e =>
                  fs_bind (fs_call (Print ("Error during PDF conversion: "
                                           ++ exn_msg e)) (Ok tt))
                    (fun _ => fs_raise e)))
  end.

End Conversion.

End Convert2Markdown.

(** No character of [s] is [c]. *)
Fixpoint lacks (c : ascii) (s : string) : bool :=
  match s with
  | EmptyString => true
  | String d s' => negb (Ascii.eqb d c) && lacks c s'
  end.


(** ** [get_available_models] *)

(** [s.split(sep)] for a separator of one character: the fields between
    the separators, at least one, empty ones included. *)
Fixpoint split_char (sep : ascii) (s : string) : list string :=
  match s with
  | EmptyString => [EmptyString]
  | String c s' =>
      if Ascii.eqb c sep then EmptyString :: split_char sep s'
      else match split_char sep s' with
           | field :: fields => String c field :: fields
           | [] => [String c EmptyString]
           end
  end.

(** [line.split(" ")[0]] *)
Definition first_field (line : string) : string :=
  match split_char " " line with
  | field :: _ => field
  | [] => EmptyString
  end.

(** The list comprehension over the lines of [result.stdout]. *)
Definition listed_models (stdout : string) : list string :=
  map first_field (filter truthy_str (split_char "010" (strip stdout))).

(** [get_available_models], given what [subprocess.run(["ollama",
    "list"], ...)] did - its standard output, or the exception it raised:
    the models, and the text of [st.error] when there is one. *)
Definition get_available_models (ran : result string)
    : list string * option string :=
  match ran with
  | Ok stdout => (listed_models stdout, None)
  | Raised e => ([], Some ("Error fetching models: " ++ exn_msg e))
  end.

(** Every character of [s] is white space. *)
Fixpoint blank (s : string) : bool :=
  match s with
  | EmptyString => true
  | String c s' => is_space c && blank s'
  end.

(** ** Scenarios with a failing language model *)

Definition model_unreachable : Exn :=
  Exception "ConnectionError" "language model unreachable".

(** The collaborators of [scenario], with a stream that breaks after
    [fragments]. *)
Definition scenario_broken_stream (found : list (string * Q))
    (fragments : list string) : Externals :=
  mkExternals
    (embed_query (scenario found fragments))
    (collection_query (scenario found fragments))
    (get_num_tokens (scenario found fragments))
    (fun _ => (fragments, Some model_unreachable))
    (clock (scenario found fragments)).

(** The collaborators of [scenario], with a token count that raises. *)
Definition scenario_uncounted (found : list (string * Q))
    (fragments : list string) : Externals :=
  mkExternals
    (embed_query (scenario found fragments))
    (collection_query (scenario found fragments))
    (fun _ => Raised model_unreachable)
    (llm_stream (scenario found fragments))
    (clock (scenario found fragments)).

(** ** The chat part of the page *)










(** ** A scenario for the conversion *)

(** An operating system in which every call succeeds: the file read holds
    [content], the output directory lists [files], and the clock advances
    75 seconds per reading. *)
Definition obliging_tools (content : string) (files : list string)
    : Convert2Markdown.Tools :=
  Convert2Markdown.mkTools
    (fun _ => true)
    (fun _ => Ok tt)
    (fun _ _ _ => Ok tt)
    (fun _ => Ok content)
    (fun _ _ => Ok tt)
    (fun _ => Ok files)
    (fun _ => Ok tt)
    (fun n => (inject_Z (Z.of_nat n) * 75)%Q).

(** A converter that renders every PDF. *)
Definition obliging_converter (input_pdf : string)
    : result Convert2Markdown.Rendered :=
  Ok (Convert2Markdown.mkRendered ("# " ++ input_pdf)).


(** ** Text updates that only grow *)

(** Each string of the list is a prefix of the next one. *)
Fixpoint growing (texts : list string) : bool :=
  match texts with
  | [] => true
  | s :: rest =>
      match rest with
      | [] => true
      | t :: _ => prefix s t && growing rest
      end
  end.
(** * Properties *)

(** ** [_format_time] *)

Example format_time_42 : _format_time 42 = "Time: 42s".
Proof. reflexivity. Qed.

Example format_time_half : _format_time (125 # 2) = "1m 2s".
Proof. reflexivity. Qed.

Example format_time_hour : _format_time 3700 = "61m 40s".
Proof. reflexivity. Qed.

(** ** Arithmetic of [_format_time] *)

Section FormatTimeFacts.

Local Open Scope Q_scope.

Variable rt : Q.
Hypothesis rt_nonneg : 0 <= rt.

Lemma div60_nonneg : 0 <= rt / 60.
Proof.
  apply Qle_shift_div_l; [reflexivity|].
  now rewrite Qmult_0_l.
Qed.

Lemma whole_minutes_nonneg : (0 <= whole_minutes rt)%Z.
Proof.
  unfold whole_minutes.
  change 0%Z with (Qfloor 0).
  apply Qfloor_resp_le, div60_nonneg.
Qed.

Lemma minutes_below : 60 * inject_Z (Qfloor (rt / 60)) <= rt.
Proof.
  assert (H := Qfloor_le (rt / 60)).
  apply (Qmult_le_l _ _ 60) in H; [|reflexivity].
  eapply Qle_trans; [exact H|].
  rewrite Qmult_div_r; [apply Qle_refl | discriminate].
Qed.

Lemma py_mod_nonneg : 0 <= py_mod rt 60.
Proof.
  unfold py_mod, py_floordiv, Qminus.
  apply (proj1 (Qle_minus_iff _ _)), minutes_below.
Qed.

Lemma py_int_floor (x : Q) : 0 <= x -> py_int x = Qfloor x.
Proof.
  intros Hx. unfold py_int.
  apply Qle_bool_iff in Hx. now rewrite Hx.
Qed.

Lemma minutes_zero_iff : Qfloor (rt / 60) = 0%Z <-> rt < 60.
Proof.
  split; intros H.
  - assert (L := Qlt_floor (rt / 60)).
    rewrite H in L. simpl in L.
    apply (Qmult_lt_r _ _ 60) in L; [|reflexivity].
    rewrite Qmult_comm, Qmult_div_r in L by discriminate.
    exact L.
  - assert (N := whole_minutes_nonneg). unfold whole_minutes in N.
    assert (U : rt / 60 < 1).
    { apply Qlt_shift_div_r; [reflexivity|]. now rewrite Qmult_1_l. }
    assert (L := Qfloor_le (rt / 60)).
    assert (B : inject_Z (Qfloor (rt / 60)) < inject_Z 1).
    { eapply Qle_lt_trans; [exact L|exact U]. }
    rewrite <- Zlt_Qlt in B. lia.
Qed.

Lemma truthy_minutes : truthy_num (py_floordiv rt 60) = Qle_bool 60 rt.
Proof.
  unfold truthy_num, py_floordiv.
  destruct (Qle_bool 60 rt) eqn:E.
  - apply Qle_bool_iff in E.
    apply negb_true_iff. apply not_true_is_false. intros C.
    apply Qeq_bool_iff in C.
    apply (proj1 (inject_Z_injective _ 0%Z)) in C.
    apply minutes_zero_iff in C.
    apply (Qlt_irrefl 60). eapply Qle_lt_trans; eassumption.
  - apply negb_false_iff. apply Qeq_bool_iff.
    assert (L : rt < 60).
    { apply Qnot_le_lt. intros C. apply Qle_bool_iff in C. congruence. }
    apply minutes_zero_iff in L. now rewrite L.
Qed.

Lemma whole_seconds_range : (0 <= whole_seconds rt < 60)%Z.
Proof.
  unfold whole_seconds. split.
  - change 0%Z with (Qfloor 0). apply Qfloor_resp_le.
    apply py_mod_nonneg.
  - assert (U : rt - 60 * inject_Z (Qfloor (rt / 60)) < inject_Z 60).
    { assert (L := Qlt_floor (rt / 60)).
      apply (Qmult_lt_r _ _ 60) in L; [|reflexivity].
      rewrite (Qmult_comm (rt / 60)), Qmult_div_r in L by discriminate.
      rewrite inject_Z_plus in L.
      apply (Qplus_lt_l _ _ (60 * inject_Z (Qfloor (rt / 60)))).
      ring_simplify. ring_simplify in L. exact L. }
    assert (F := Qfloor_le (rt - 60 * inject_Z (Qfloor (rt / 60)))).
    assert (B := Qle_lt_trans _ _ _ F U).
    now rewrite <- Zlt_Qlt in B.
Qed.

End FormatTimeFacts.

(** C10. For a response time that is not negative, [_format_time] returns
    "{m}m {s}s" as soon as a full minute has elapsed and "Time: {s}s"
    before that, with [m = floor(response_time / 60)] and
    [s = floor(response_time mod 60)], a number of seconds from 0 to 59;
    there is no hours part, so [m] is not bounded by 60. *)
Theorem format_time_minutes_or_seconds (response_time : Q) :
  (0 <= response_time)%Q ->
  _format_time response_time =
    (if Qle_bool 60 response_time
     then str_int (whole_minutes response_time) ++ "m "
          ++ str_int (whole_seconds response_time) ++ "s"
     else "Time: " ++ str_int (whole_seconds response_time) ++ "s")
  /\ (0 <= whole_seconds response_time < 60)%Z
  /\ (0 <= whole_minutes response_time)%Z.
Proof.
  intros Hrt. split; [|split].
  - unfold _format_time.
    rewrite (truthy_minutes _ Hrt).
    assert (Hs : py_int (py_mod response_time 60) = whole_seconds response_time).
    { rewrite py_int_floor by (apply py_mod_nonneg; exact Hrt). reflexivity. }
    assert (Hm : py_int (py_floordiv response_time 60)
                 = whole_minutes response_time).
    { unfold py_floordiv.
      rewrite py_int_floor.
      - apply Qfloor_Z.
      - change 0%Q with (inject_Z 0). rewrite <- Zle_Qle.
        apply (whole_minutes_nonneg _ Hrt). }
    rewrite Hs, Hm. reflexivity.
  - apply whole_seconds_range; exact Hrt.
  - apply whole_minutes_nonneg; exact Hrt.
Qed.

Lemma format_time_minutes_or_seconds_witness :
  (0 <= 3700)%Q /\ _format_time 3700 = "61m 40s".
Proof.
  split; [discriminate|].
  exact (proj1 (format_time_minutes_or_seconds 3700 ltac:(discriminate))).
Defined.

(** ** [remove_tags] and [join] on examples *)

Example join_three :
  join passage_delimiter ["a"; "b"; "c"]
  = "a" ++ nl ++ "-----" ++ nl ++ "b" ++ nl ++ "-----" ++ nl ++ "c".
Proof. reflexivity. Qed.

Example remove_tags_block :
  remove_tags ("<think>plan" ++ nl ++ "more</think>" ++ nl ++ "Paris. ")
  = "Paris.".
Proof. reflexivity. Qed.

Example remove_tags_lazy :
  remove_tags "<think>a</think>b<think>c</think>d" = "bd".
Proof. reflexivity. Qed.

Example remove_tags_unclosed :
  remove_tags "answer <think>still thinking" = "answer <think>still thinking".
Proof. reflexivity. Qed.

Example remove_tags_nested :
  remove_tags "<think><think>a</think>b</think>" = "b</think>".
Proof. reflexivity. Qed.

(** ** Traces *)

Lemma yields_app (t u : list Event) : yields (t ++ u) = (yields t ++ yields u)%list.
Proof.
  induction t as [|e t IH]; [reflexivity|].
  destruct e; simpl; rewrite IH; reflexivity.
Qed.

Lemma rendered_app (t u : list Event) :
  rendered (t ++ u) = (rendered t ++ rendered u)%list.
Proof.
  induction t as [|e t IH]; [reflexivity|].
  destruct e; simpl; rewrite IH; reflexivity.
Qed.

Lemma assistant_messages_app (t u : list Event) :
  assistant_messages (t ++ u)
  = (assistant_messages t ++ assistant_messages u)%list.
Proof.
  induction t as [|e t IH]; [reflexivity|].
  destruct e; simpl; rewrite ?IH; try reflexivity.
  destruct (role =? "assistant")%string; reflexivity.
Qed.

Lemma append_nil_r (s : string) : s ++ "" = s.
Proof. induction s; simpl; congruence. Qed.

Lemma append_assoc (s t u : string) : (s ++ t) ++ u = s ++ t ++ u.
Proof. induction s; simpl; congruence. Qed.

(** ** The streaming loop *)

Lemma running_shift (acc : string) (chunks : list string) :
  running acc chunks = map (append acc) (running "" chunks).
Proof.
  revert acc. induction chunks as [|c rest IH]; intros acc; [reflexivity|].
  simpl. rewrite (IH (acc ++ c)), (IH c), map_map. f_equal.
  apply map_ext. intros s. apply append_assoc.
Qed.

Lemma running_accumulated (chunks : list string) :
  running "" chunks = accumulated chunks.
Proof.
  unfold accumulated.
  induction chunks as [|c rest IH]; [reflexivity|].
  simpl running. rewrite running_shift, IH.
  simpl List.length. rewrite <- cons_seq, <- (seq_shift _ 1).
  simpl. rewrite append_nil_r, !map_map. reflexivity.
Qed.

Lemma stream_loop_run (chunks : list string) (acc : string) (w : World) :
  stream_loop chunks acc w =
    (mkWorld (trace w ++ map (fun s => Yield (VStr s)) (running acc chunks))
             (ticks w),
     Ok (acc ++ concat_all chunks)).
Proof.
  revert acc w. induction chunks as [|c rest IH]; intros acc w.
  - simpl. rewrite app_nil_r, append_nil_r. destruct w; reflexivity.
  - simpl stream_loop. unfold bind, yield, emit.
    rewrite IH. simpl. rewrite <- app_assoc, append_assoc. reflexivity.
Qed.

Lemma last_accumulated (chunks : list string) :
  last (accumulated chunks) "" = concat_all chunks.
Proof.
  unfold accumulated.
  destruct chunks as [|c rest]; [reflexivity|].
  set (l := c :: rest).
  assert (E : seq 1 (List.length l)
              = (seq 1 (List.length rest) ++ [List.length l])%list).
  { change (List.length l) with (S (List.length rest)).
    rewrite seq_S. reflexivity. }
  rewrite E, map_app. cbn [map].
  rewrite last_last, firstn_all. reflexivity.
Qed.

(** ** Retrieval *)

Section RetrievalFacts.

Variable ext : Externals.
Variable self : RAGSystem.
Variable query : string.

Lemma retrieve_run (w : World) :
  _retrieve ext self query w =
    (mkWorld (trace w ++ (retrieval_calls ext self query)) (ticks w), retrieved ext self query).
Proof.
  unfold retrieved, retrieval_calls, _retrieve, _generate_embeddings,
    bind, emit, lift, subscript, ret, raise.
  simpl.
  destruct (embed_query ext query) as [embedding|e]; simpl.
  - rewrite <- app_assoc. simpl.
    destruct (collection_query ext [embedding] (n_results self)) as [res|e];
      simpl; [|reflexivity].
    destruct (documents res) as [|first others]; reflexivity.
  - reflexivity.
Qed.

Lemma retrieval_calls_silent :
  yields (retrieval_calls ext self query) = [] /\
  engine_prompts (retrieval_calls ext self query) = [] /\
  existsb is_engine_call (retrieval_calls ext self query) = false /\
  rendered (retrieval_calls ext self query) = [] /\
  assistant_messages (retrieval_calls ext self query) = [].
Proof.
  unfold retrieval_calls.
  destruct (embed_query ext query); repeat split; reflexivity.
Qed.

(** The run of the generator when retrieval found nothing. *)
Lemma generate_response_nothing_found (w : World) :
  retrieved ext self query = Ok [] ->
  generate_response ext self query w =
    (mkWorld (trace w ++ (retrieval_calls ext self query)) (ticks w), Ok (VStr no_information)).
Proof.
  intros H. unfold generate_response, bind.
  rewrite retrieve_run, H. reflexivity.
Qed.

(** The run of the generator when retrieval failed. *)
Lemma generate_response_retrieval_raised (w : World) (e : Exn) :
  retrieved ext self query = Raised e ->
  generate_response ext self query w =
    (mkWorld (trace w ++ (retrieval_calls ext self query)) (ticks w), Raised e).
Proof.
  intros H. unfold generate_response, bind.
  rewrite retrieve_run, H. reflexivity.
Qed.

(** The run of the generator when retrieval found passages, the token
    count came back and the stream ran to its end. *)
Lemma generate_response_streamed (w : World) (docs : list string)
    (tc : Z) (fragments : list string) :
  retrieved ext self query = Ok docs ->
  truthy_list docs = true ->
  let prompt := prompt_of (join passage_delimiter docs) query in
  get_num_tokens ext prompt = Ok tc ->
  llm_stream ext prompt = (fragments, None) ->
  generate_response ext self query w =
    (mkWorld
       (trace w ++ (retrieval_calls ext self query)
        ++ [LoggerInfo prompt; GetNumTokens prompt; TimeTime; StreamOpen prompt]
        ++ map (fun s => Yield (VStr s)) (running "" fragments)
        ++ [TimeTime;
            Yield (metadata tc (clock ext (S (ticks w)) - clock ext (ticks w)))])
       (S (S (ticks w))),
     Ok VNone).
Proof.
  intros Hdocs Hne prompt Htc Hstream.
  unfold generate_response, bind.
  rewrite retrieve_run, Hdocs, Hne. simpl negb. cbv iota.
  fold prompt. unfold emit, lift, time_time, yield, emit, ret. simpl.
  rewrite Htc. rewrite stream_loop_run. rewrite Hstream. simpl.
  unfold metadata.
  repeat (rewrite <- app_assoc; simpl).
  reflexivity.
Qed.

End RetrievalFacts.

(** ** What the caller of [generate_response] observes *)

(** C2. When retrieval finds passages and the engine streams the fragments
    [f1 ... fn], the caller receives the accumulated strings [f1],
    [f1 + f2], ..., [f1 + ... + fn] in that order, then one metadata record
    and nothing after it; the last accumulated string is the concatenation
    of all fragments. *)
Theorem streamed_prefixes_then_metadata (ext : Externals) (self : RAGSystem)
    (query : string) (docs : list string) (tc : Z) (fragments : list string) :
  retrieved ext self query = Ok docs ->
  truthy_list docs = true ->
  get_num_tokens ext (prompt_of (join passage_delimiter docs) query) = Ok tc ->
  llm_stream ext (prompt_of (join passage_delimiter docs) query)
    = (fragments, None) ->
  yields (trace (fst (generate_response ext self query world0)))
    = (map VStr (accumulated fragments)
       ++ [metadata tc (clock ext 1 - clock ext 0)])%list
  /\ snd (generate_response ext self query world0) = Ok VNone
  /\ last (accumulated fragments) "" = concat_all fragments.
Proof.
  intros Hdocs Hne Htc Hstream.
  rewrite (generate_response_streamed ext self query world0 docs tc fragments
             Hdocs Hne Htc Hstream).
  split; [|split; [reflexivity|apply last_accumulated]].
  simpl fst. simpl trace.
  destruct (retrieval_calls_silent ext self query) as [Hy _].
  rewrite !yields_app, Hy. simpl.
  rewrite yields_app. simpl. f_equal.
  rewrite <- running_accumulated.
  induction (running "" fragments) as [|s l IH]; simpl; congruence.
Qed.

Lemma streamed_prefixes_then_metadata_witness :
  yields (trace (fst (generate_response
                        (scenario paris_found ["It is "; "known for "; "the Eiffel Tower."])
                        (page_rag_system "deepseek-r1:7b") paris_question world0)))
  = [VStr "It is "; VStr "It is known for ";
     VStr "It is known for the Eiffel Tower.";
     VTuple [VInt 747; VStr "1m 15s"]].
Proof.
  exact (proj1 (streamed_prefixes_then_metadata
           (scenario paris_found ["It is "; "known for "; "the Eiffel Tower."])
           (page_rag_system "deepseek-r1:7b") paris_question
           ["It is known for the Eiffel Tower.";
            "Paris is the capital of France.";
            "The Seine river runs through it."]
           747 ["It is "; "known for "; "the Eiffel Tower."]
           eq_refl eq_refl eq_refl eq_refl)).
Defined.

(** C1. On an empty collection the generator stops at its [return]
    without a single [yield]: the fallback string is only the value of the
    finished generator, the Generation Engine is not called, and the
    handler, whose loop body never ran, stores the message of the
    [NameError] on [token_count] instead of the fallback answer. *)
Theorem empty_collection_answer_is_lost :
  let ext := scenario [] ["unused"] in
  let rag_system := page_rag_system "deepseek-r1:7b" in
  let run := generate_response ext rag_system paris_question world0 in
  let page := trace (fst (chat_handler ext rag_system paris_question world0)) in
  retrieved ext rag_system paris_question = Ok []
  /\ snd run = Ok (VStr "No relevant information found.")
  /\ yields (trace (fst run)) = []
  /\ engine_prompts (trace (fst run)) = []
  /\ rendered page = []
  /\ assistant_messages page = ["Error: name 'token_count' is not defined"].
Proof. vm_compute. repeat split. Qed.

(** C5. An exception of the embedding provider at query time leaves
    [generate_response] as that same exception, after the embedding call
    and nothing else: retrieval does not turn it into an empty result and
    the generator does not return the fallback string. *)
Theorem embedding_failure_propagates (ext : Externals) (self : RAGSystem)
    (query : string) (e : Exn) (w : World) :
  embed_query ext query = Raised e ->
  generate_response ext self query w
    = (mkWorld (trace w ++ [EmbedQuery query]) (ticks w), Raised e)
  /\ snd (_retrieve ext self query w) = Raised e
  /\ snd (_retrieve ext self query w) <> Ok []
  /\ snd (generate_response ext self query w) <> Ok (VStr no_information).
Proof.
  intros He.
  assert (Hr : retrieved ext self query = Raised e).
  { unfold retrieved, _retrieve, _generate_embeddings, bind, emit, lift.
    simpl. rewrite He. reflexivity. }
  assert (Hc : retrieval_calls ext self query = [EmbedQuery query]).
  { unfold retrieval_calls. rewrite He. reflexivity. }
  rewrite (generate_response_retrieval_raised ext self query w e Hr).
  rewrite retrieve_run, Hr, Hc. simpl.
  repeat split; discriminate.
Qed.

Lemma embedding_failure_propagates_witness :
  snd (generate_response (scenario_unreachable paris_found ["unused"])
         (page_rag_system "deepseek-r1:7b") paris_question world0)
  = Raised (Exception "ConnectionError" "embedding model unreachable").
Proof.
  exact (f_equal snd
           (proj1 (embedding_failure_propagates
                     (scenario_unreachable paris_found ["unused"])
                     (page_rag_system "deepseek-r1:7b") paris_question
                     (Exception "ConnectionError" "embedding model unreachable")
                     world0 eq_refl))).
Defined.

(** ** Text updates and the metadata record *)

Lemma text_is_shown (s : string) : shown_as_text (VStr s).
Proof. exists s. split; reflexivity. Qed.

Lemma metadata_is_taken (tc : Z) (elapsed : Q) :
  taken_as_metadata (metadata tc elapsed).
Proof. exists tc, (_format_time elapsed). split; reflexivity. Qed.

(** Whatever the collaborators do, the generator yields some strings and
    then at most one metadata record. *)
Lemma generate_response_yields_shape (ext : Externals) (self : RAGSystem)
    (query : string) :
  exists texts meta,
    yields (trace (fst (generate_response ext self query world0)))
      = (map VStr texts ++ meta)%list
    /\ (meta = [] \/ exists tc elapsed, meta = [metadata tc elapsed]).
Proof.
  unfold generate_response, bind.
  rewrite retrieve_run.
  destruct (retrieval_calls_silent ext self query) as [Hy _].
  destruct (retrieved ext self query) as [docs|e].
  2:{ exists [], []. simpl. rewrite Hy. auto. }
  destruct docs as [|d docs].
  { exists [], []. simpl. rewrite Hy. auto. }
  simpl negb. cbv iota.
  set (prompt := prompt_of _ _).
  unfold emit, lift, time_time, yield, emit, ret, raise. simpl.
  destruct (get_num_tokens ext prompt) as [tc|e].
  2:{ exists [], []. simpl. rewrite !yields_app, Hy. auto. }
  rewrite stream_loop_run.
  destruct (llm_stream ext prompt) as [fragments [e|]]; simpl.
  - exists (running "" fragments), []. split; [|auto].
    rewrite !yields_app, Hy. simpl. rewrite app_nil_r.
    induction (running "" fragments) as [|s l IH]; simpl; congruence.
  - exists (running "" fragments),
      [metadata tc (clock ext 1 - clock ext 0)].
    split; [|eauto].
    rewrite !yields_app, Hy. simpl. f_equal.
    induction (running "" fragments) as [|s l IH]; simpl; congruence.
Qed.

(** C3. Every value [generate_response] yields is either a string, which
    the handler's [isinstance(chunk, tuple)] test sends to the text branch,
    or the pair of token count and formatted time, which the test sends to
    the metadata branch; no value is both. *)
Theorem yields_text_or_metadata (ext : Externals) (self : RAGSystem)
    (query : string) :
  Forall
    (fun v =>
       (isinstance_str v = true /\ isinstance_tuple v = false
        /\ shown_as_text v)
       \/ (isinstance_tuple v = true /\ isinstance_str v = false
           /\ taken_as_metadata v))
    (yields (trace (fst (generate_response ext self query world0)))).
Proof.
  destruct (generate_response_yields_shape ext self query)
    as (texts & meta & -> & Hmeta).
  apply Forall_app. split.
  - apply Forall_forall. intros v Hv.
    apply in_map_iff in Hv. destruct Hv as (s & <- & _).
    left. repeat split. apply text_is_shown.
  - destruct Hmeta as [->|(tc & elapsed & ->)]; [constructor|].
    constructor; [|constructor].
    right. repeat split. apply metadata_is_taken.
Qed.

(** ** The prompt *)

Lemma engine_prompts_app (t u : list Event) :
  engine_prompts (t ++ u) = (engine_prompts t ++ engine_prompts u)%list.
Proof.
  induction t as [|e t IH]; [reflexivity|].
  destruct e; simpl; rewrite IH; reflexivity.
Qed.

Lemma engine_prompts_yields (l : list string) :
  engine_prompts (map (fun s => Yield (VStr s)) l) = [].
Proof. induction l; simpl; auto. Qed.

Lemma prompt_sections (context_passages : list string) (query : string) :
  exists before between between' after,
    prompt_of (join passage_delimiter context_passages) query
    = before ++ context_section context_passages
      ++ between ++ question_section query
      ++ between' ++ instruction_block ++ after.
Proof.
  exists (nl ++
    indent8 ++ "You are an AI assistant specialized in answering questions based **only** on the provided context.  " ++ nl ++
    indent8 ++ "The context is structured with sections separated by `-----`.  " ++ nl ++
    nl ++ indent8),
    ("  " ++ nl ++ nl ++ indent8),
    ("  " ++ nl ++ nl ++ indent8),
    ("  " ++ nl ++ nl ++ indent8 ++ "### **Answer:**" ++ nl ++ indent8).
  unfold prompt_of, context_section, question_section, instruction_block,
    fallback_sentence.
  repeat (rewrite !append_assoc; simpl).
  reflexivity.
Qed.

Lemma fallback_in_instructions : infix_of fallback_sentence instruction_block.
Proof.
  exists ("### **Instructions:**  " ++ nl ++
          indent8 ++ "- Answer concisely and accurately using only the given context.  " ++ nl ++
          indent8 ++ "- Put what you find from the context without summarizing." ++ nl ++
          indent8 ++ "- If the answer is unclear or missing, state: " ++ dq),
         dq.
  reflexivity.
Qed.

(** C4. When retrieval finds passages, the prompt the Generation Engine
    receives holds, in this order, the Context section with the passages
    joined by the dash line, the Question section with the query as it was
    asked, and the instruction block, which carries the fallback sentence. *)
Theorem prompt_holds_context_question_instructions (ext : Externals)
    (self : RAGSystem) (query : string) (docs : list string) :
  retrieved ext self query = Ok docs ->
  truthy_list docs = true ->
  let prompt := prompt_of (join passage_delimiter docs) query in
  let calls := engine_prompts
                 (trace (fst (generate_response ext self query world0))) in
  (calls = [prompt] \/ calls = [prompt; prompt])
  /\ (exists before between between' after,
        prompt = before ++ context_section docs
                 ++ between ++ question_section query
                 ++ between' ++ instruction_block ++ after)
  /\ infix_of fallback_sentence instruction_block.
Proof.
  intros Hdocs Hne prompt calls.
  split; [|split; [apply prompt_sections|apply fallback_in_instructions]].
  subst calls.
  unfold generate_response, bind.
  rewrite retrieve_run, Hdocs, Hne. simpl negb. cbv iota.
  fold prompt.
  destruct (retrieval_calls_silent ext self query) as (_ & Hp & _).
  unfold emit, lift, time_time, yield, emit, ret, raise. simpl.
  destruct (get_num_tokens ext prompt) as [tc|e].
  2:{ left. simpl. rewrite !engine_prompts_app, Hp. reflexivity. }
  right. rewrite stream_loop_run.
  destruct (llm_stream ext prompt) as [fragments [e|]]; simpl;
    rewrite !engine_prompts_app, Hp, ?engine_prompts_yields; reflexivity.
Qed.

Lemma prompt_holds_context_question_instructions_witness :
  engine_prompts
    (trace (fst (generate_response (scenario paris_found ["Towers."])
                   (page_rag_system "deepseek-r1:7b") paris_question world0)))
  = [prompt_of ("It is known for the Eiffel Tower." ++ nl ++ "-----" ++ nl ++
                "Paris is the capital of France." ++ nl ++ "-----" ++ nl ++
                "The Seine river runs through it.") paris_question;
     prompt_of ("It is known for the Eiffel Tower." ++ nl ++ "-----" ++ nl ++
                "Paris is the capital of France." ++ nl ++ "-----" ++ nl ++
                "The Seine river runs through it.") paris_question].
Proof.
  destruct (proj1 (prompt_holds_context_question_instructions
                     (scenario paris_found ["Towers."])
                     (page_rag_system "deepseek-r1:7b") paris_question
                     ["It is known for the Eiffel Tower.";
                      "Paris is the capital of France.";
                      "The Seine river runs through it."]
                     eq_refl eq_refl)) as [H|H].
  - discriminate H.
  - exact H.
Defined.

(** ** Construction *)

Lemma named_collection_is_opened (name db model : string) (n : Z) (w : World) :
  name <> "" ->
  __init__ name db model n w =
    (mkWorld (trace w ++ [NewOllamaLLM model; SetupLogging;
                          NewOllamaEmbeddings "mxbai-embed-large:latest";
                          NewPersistentClient db; GetOrCreateCollection name;
                          LoggerInfo "*** RAGSystem initialized ***"])
             (ticks w),
     Ok (mkRAGSystem name db model n)).
Proof.
  intros Hname. unfold __init__, bind, emit, ret. simpl.
  destruct (String.eqb_spec name ""); [contradiction|].
  simpl. repeat (rewrite <- app_assoc; simpl). reflexivity.
Qed.

(** C8. [RAGSystem("", ...)] raises the [ValueError] on the collection
    name during construction, once, after the language-model handle is
    made and before the persistent client and the collection are created
    or opened; no object is returned. *)
Theorem empty_collection_name_is_rejected (db model : string) (n : Z)
    (w : World) :
  __init__ "" db model n w =
    (mkWorld (trace w ++ [NewOllamaLLM model]) (ticks w),
     Raised (ValueError "'collection_name' parameter is required."))
  /\ existsb opens_store (trace (fst (__init__ "" db model n world0))) = false.
Proof. split; reflexivity. Qed.

(** ** The handler's loop *)

Lemma consume_calls (t : list Event) (names : Names) (w : World) :
  yields t = [] ->
  consume t names w = (mkWorld (trace w ++ t) (ticks w), Ok names).
Proof.
  revert w. induction t as [|e t IH]; intros w Hy.
  - simpl. rewrite app_nil_r. destruct w; reflexivity.
  - destruct e; simpl in Hy; try discriminate;
      simpl; unfold bind, emit; rewrite (IH _ Hy); simpl;
      rewrite <- app_assoc; reflexivity.
Qed.

Lemma consume_app (t u : list Event) (names : Names) (w : World) :
  consume (t ++ u) names w =
    match consume t names w with
    | (w', Ok names') => consume u names' w'
    | (w', Raised e) => (w', Raised e)
    end.
Proof.
  revert names w. induction t as [|e t IH]; intros names w; [reflexivity|].
  destruct e; simpl; unfold bind; simpl; try apply IH.
  destruct (on_chunk v names _) as [w' [names'|e]]; [apply IH|reflexivity].
Qed.

Lemma last_cons_default {A : Type} (x : A) (l : list A) (d d' : A) :
  last (x :: l) d = last (x :: l) d'.
Proof.
  revert x. induction l as [|y l IH]; intros x; [reflexivity|].
  change (last (y :: l) d = last (y :: l) d'). apply IH.
Qed.

Lemma consume_texts (texts : list string) (names : Names) (w : World) :
  consume (map (fun s => Yield (VStr s)) texts) names w =
    (mkWorld (trace w ++ shown texts) (ticks w),
     Ok (mkNames (last (map VStr texts) (streamed_response names))
                 (token_count names) (response_time names))).
Proof.
  revert names w. induction texts as [|s texts IH]; intros names w.
  - simpl. rewrite app_nil_r. destruct w, names; reflexivity.
  - simpl consume. unfold bind, emit, on_chunk. simpl.
    unfold bind, emit, ret. simpl. rewrite IH. simpl.
    repeat (rewrite <- app_assoc; simpl).
    f_equal. f_equal. f_equal.
    destruct texts; [reflexivity|apply last_cons_default].
Qed.

Lemma rendered_shown (texts : list string) : rendered (shown texts) = texts.
Proof. induction texts; simpl; congruence. Qed.

Lemma assistant_messages_shown (texts : list string) :
  assistant_messages (shown texts) = [].
Proof. induction texts; simpl; auto. Qed.

(** The handler when retrieval finds nothing: the loop body never runs,
    and reading [token_count] after the loop fails. *)
Lemma chat_handler_nothing_found (ext : Externals) (rag_system : RAGSystem)
    (query : string) :
  retrieved ext rag_system query = Ok [] ->
  trace (fst (chat_handler ext rag_system query world0)) =
    ([AppendMessage "user" query; StMarkdown query]
     ++ retrieval_calls ext rag_system query
     ++ [AppendMessage "assistant" "Error: name 'token_count' is not defined";
         StRerun])%list.
Proof.
  intros H.
  unfold chat_handler, bind, emit. simpl.
  unfold chat_try. simpl.
  rewrite (generate_response_nothing_found ext rag_system query _ H). simpl.
  destruct (retrieval_calls_silent ext rag_system query) as [Hy _].
  unfold bind at 1. rewrite (consume_calls _ _ _ Hy). simpl.
  repeat (rewrite <- app_assoc; simpl). reflexivity.
Qed.

(** The handler when retrieval raises: the message of the exception is
    what the page stores. *)
Lemma chat_handler_retrieval_raised (ext : Externals) (rag_system : RAGSystem)
    (query : string) (e : Exn) :
  retrieved ext rag_system query = Raised e ->
  trace (fst (chat_handler ext rag_system query world0)) =
    ([AppendMessage "user" query; StMarkdown query]
     ++ retrieval_calls ext rag_system query
     ++ [AppendMessage "assistant" ("Error: " ++ exn_msg e); StRerun])%list.
Proof.
  intros H.
  unfold chat_handler, bind, emit. simpl.
  unfold chat_try. simpl.
  rewrite (generate_response_retrieval_raised ext rag_system query _ e H).
  simpl.
  destruct (retrieval_calls_silent ext rag_system query) as [Hy _].
  unfold bind at 1. rewrite (consume_calls _ _ _ Hy). simpl.
  repeat (rewrite <- app_assoc; simpl). reflexivity.
Qed.

Section HandlerFacts.

Variable ext : Externals.
Variable rag_system : RAGSystem.
Variable query : string.
Variable docs : list string.
Variable tc : Z.
Variable fragments : list string.

Hypothesis found : retrieved ext rag_system query = Ok docs.
Hypothesis some_found : truthy_list docs = true.
Hypothesis counted :
  get_num_tokens ext (prompt_of (join passage_delimiter docs) query) = Ok tc.
Hypothesis streamed :
  llm_stream ext (prompt_of (join passage_delimiter docs) query)
    = (fragments, None).

(** The whole page trace of an answered question. *)
Lemma chat_handler_streamed :
  let prompt := prompt_of (join passage_delimiter docs) query in
  let elapsed := _format_time (clock ext 1 - clock ext 0) in
  trace (fst (chat_handler ext rag_system query world0)) =
    ([AppendMessage "user" query; StMarkdown query]
     ++ retrieval_calls ext rag_system query
     ++ [LoggerInfo prompt; GetNumTokens prompt; TimeTime; StreamOpen prompt]
     ++ shown (accumulated fragments)
     ++ [TimeTime; Yield (metadata tc (clock ext 1 - clock ext 0));
         StWrite ("Token Count: " ++ str_int tc ++ ", Response Time: "
                  ++ elapsed);
         AppendMessage "assistant"
           (response_of (remove_tags (concat_all fragments))
                        (str_int tc) elapsed)])%list.
Proof.
  intros prompt elapsed.
  unfold chat_handler, bind, emit. simpl.
  unfold chat_try. simpl.
  rewrite (generate_response_streamed ext rag_system query _ docs tc fragments
             found some_found counted streamed).
  fold prompt. simpl.
  destruct (retrieval_calls_silent ext rag_system query) as [Hy _].
  unfold bind at 1.
  rewrite consume_app, (consume_calls _ _ _ Hy).
  cbn [consume]. unfold bind, emit. cbn [trace ticks].
  rewrite consume_app, consume_texts.
  simpl.
  unfold bind, emit, on_chunk, lift, load, as_text, ret. simpl.
  unfold bind, ret. simpl.
  rewrite running_accumulated.
  assert (L : last (map VStr (accumulated fragments)) (VStr "")
              = VStr (concat_all fragments)).
  { rewrite <- last_accumulated.
    generalize (accumulated fragments) as l.
    induction l as [|s l IH]; [reflexivity|].
    destruct l; [reflexivity|]. exact IH. }
  rewrite L. simpl.
  repeat (rewrite <- app_assoc; simpl).
  reflexivity.
Qed.

End HandlerFacts.

(** C9. While the answer streams, the placeholder shows each accumulated
    string exactly as the generator yielded it; [remove_tags] is applied
    once, to the complete response after the loop, and only the stored
    assistant message carries its result. *)
Theorem tags_removed_only_from_final_response (ext : Externals)
    (rag_system : RAGSystem) (query : string) (docs : list string) (tc : Z)
    (fragments : list string) :
  retrieved ext rag_system query = Ok docs ->
  truthy_list docs = true ->
  get_num_tokens ext (prompt_of (join passage_delimiter docs) query) = Ok tc ->
  llm_stream ext (prompt_of (join passage_delimiter docs) query)
    = (fragments, None) ->
  let page := trace (fst (chat_handler ext rag_system query world0)) in
  rendered page = accumulated fragments
  /\ assistant_messages page =
       [response_of (remove_tags (concat_all fragments)) (str_int tc)
                    (_format_time (clock ext 1 - clock ext 0))].
Proof.
  intros Hdocs Hne Htc Hstream page. subst page.
  rewrite (chat_handler_streamed ext rag_system query docs tc fragments
             Hdocs Hne Htc Hstream).
  destruct (retrieval_calls_silent ext rag_system query)
    as (_ & _ & _ & Hr & Ha).
  split.
  - rewrite !rendered_app, Hr, rendered_shown. simpl. apply app_nil_r.
  - rewrite !assistant_messages_app, Ha, assistant_messages_shown.
    reflexivity.
Qed.

Lemma tags_removed_only_from_final_response_witness :
  let page :=
    trace (fst (chat_handler
                  (scenario paris_found
                     ["<think>"; "plan"; "</think>"; " The Eiffel Tower."])
                  (page_rag_system "deepseek-r1:7b") paris_question world0)) in
  rendered page =
    ["<think>"; "<think>plan"; "<think>plan</think>";
     "<think>plan</think> The Eiffel Tower."]
  /\ assistant_messages page =
       [response_of "The Eiffel Tower." "747" "1m 15s"].
Proof.
  exact (tags_removed_only_from_final_response
           (scenario paris_found
              ["<think>"; "plan"; "</think>"; " The Eiffel Tower."])
           (page_rag_system "deepseek-r1:7b") paris_question
           ["It is known for the Eiffel Tower.";
            "Paris is the capital of France.";
            "The Seine river runs through it."]
           747 ["<think>"; "plan"; "</think>"; " The Eiffel Tower."]
           eq_refl eq_refl eq_refl eq_refl).
Defined.

(** ** The vector store *)

Section StoreFacts.

Variable metric : Embedding -> Embedding -> Q.
Variable v : Embedding.

Lemma insert_near_perm (c : Chunk) (l : list Chunk) :
  Permutation (c :: l) (insert_near metric v c l).
Proof.
  induction l as [|d l IH]; simpl; [apply Permutation_refl|].
  destruct (Qle_bool _ _); [apply Permutation_refl|].
  eapply Permutation_trans; [apply perm_swap|].
  apply perm_skip, IH.
Qed.

Lemma by_distance_perm (l : list Chunk) :
  Permutation l (by_distance metric v l).
Proof.
  induction l as [|c l IH]; simpl; [constructor|].
  eapply Permutation_trans; [apply perm_skip, IH|apply insert_near_perm].
Qed.

Lemma insert_near_sorted (c : Chunk) (l : list Chunk) :
  StronglySorted (nearer_or_equal metric v) l ->
  StronglySorted (nearer_or_equal metric v) (insert_near metric v c l).
Proof.
  induction l as [|d l IH]; intros Hs; simpl.
  - constructor; constructor.
  - inversion Hs as [|? ? Hl Hd]; subst.
    destruct (Qle_bool _ _) eqn:E.
    + apply Qle_bool_iff in E.
      constructor; [exact Hs|].
      constructor; [exact E|].
      eapply Forall_impl; [|exact Hd].
      intros a Ha. unfold nearer_or_equal in *.
      eapply Qle_trans; eassumption.
    + assert (Hlt : (nearer_or_equal metric v) d c).
      { unfold nearer_or_equal. apply Qlt_le_weak, Qnot_le_lt.
        intros C. apply Qle_bool_iff in C. congruence. }
      constructor; [apply IH, Hl|].
      eapply Permutation_Forall; [apply insert_near_perm|].
      constructor; assumption.
Qed.

Lemma by_distance_sorted (l : list Chunk) :
  StronglySorted (nearer_or_equal metric v) (by_distance metric v l).
Proof.
  induction l as [|c l IH]; simpl; [constructor|].
  apply insert_near_sorted, IH.
Qed.

Lemma firstn_sorted (n : nat) (l : list Chunk) :
  StronglySorted (nearer_or_equal metric v) l ->
  StronglySorted (nearer_or_equal metric v) (firstn n l).
Proof.
  revert n. induction l as [|c l IH]; intros n Hs.
  - rewrite firstn_nil. constructor.
  - destruct n; [constructor|]. simpl.
    inversion Hs as [|? ? Hl Hc]; subst.
    constructor; [apply IH, Hl|].
    apply Forall_forall. intros a Ha.
    apply (proj1 (Forall_forall _ _) Hc).
    rewrite <- (firstn_skipn n l). apply in_or_app. now left.
Qed.

(** Every chunk left out is at least as far as every chunk returned. *)
Lemma skipn_after_firstn (n : nat) (l : list Chunk) :
  StronglySorted (nearer_or_equal metric v) l ->
  forall c d, In c (firstn n l) -> In d (skipn n l) -> (nearer_or_equal metric v) c d.
Proof.
  revert n. induction l as [|a l IH]; intros n Hs c d Hc Hd.
  - rewrite firstn_nil in Hc. contradiction.
  - destruct n; [contradiction|].
    inversion Hs as [|? ? Hl Ha]; subst.
    simpl in Hc, Hd. destruct Hc as [<-|Hc].
    + apply (proj1 (Forall_forall _ _) Ha).
      rewrite <- (firstn_skipn n l). apply in_or_app. now right.
    + eapply IH; eassumption.
Qed.

End StoreFacts.

Lemma retrieved_from_store (metric : Embedding -> Embedding -> Q)
    (chunks : list Chunk) (ext : Externals) (self : RAGSystem)
    (query : string) (embedding : Embedding) :
  embed_query ext query = Ok embedding ->
  retrieved (with_store metric chunks ext) self query
  = Ok (map chunk_text (nearest metric chunks embedding (n_results self))).
Proof.
  intros He.
  unfold retrieved, _retrieve, _generate_embeddings, bind, emit, lift. simpl.
  rewrite He. reflexivity.
Qed.

(** What [_retrieve] returns over the store, for any [n_results]. *)
Lemma retrieve_nearest_of_store (metric : Embedding -> Embedding -> Q)
    (chunks : list Chunk) (ext : Externals) (self : RAGSystem)
    (query : string) (embedding : Embedding) :
  embed_query ext query = Ok embedding ->
  exists hits others,
    retrieved (with_store metric chunks ext) self query
      = Ok (map chunk_text hits)
    /\ List.length hits
       = Nat.min (List.length chunks) (Z.to_nat (n_results self))
    /\ StronglySorted (nearer_or_equal metric embedding) hits
    /\ Permutation chunks (hits ++ others)
    /\ (forall c d, In c hits -> In d others ->
                    nearer_or_equal metric embedding c d).
Proof.
  intros He.
  set (k := Z.to_nat (n_results self)).
  set (sorted := by_distance metric embedding chunks).
  exists (firstn k sorted), (skipn k sorted).
  assert (Hlen : List.length sorted = List.length chunks).
  { symmetry. apply Permutation_length, by_distance_perm. }
  split; [|split; [|split; [|split]]].
  - rewrite (retrieved_from_store metric chunks ext self query embedding He).
    reflexivity.
  - rewrite length_firstn, Hlen. apply Nat.min_comm.
  - apply firstn_sorted, by_distance_sorted.
  - rewrite firstn_skipn. apply by_distance_perm.
  - apply skipn_after_firstn, by_distance_sorted.
Qed.

(** C6. Over a store that answers as the specification says, the page's
    retrieval ([n_results = 5]) returns the texts of [min(m, 5)] of the [m]
    stored chunks, so at most 5 and exactly [m] when [m < 5], in ascending
    distance to the query vector, and no chunk left out is nearer than a
    chunk returned. *)
Theorem retrieve_returns_nearest_top_k (metric : Embedding -> Embedding -> Q)
    (chunks : list Chunk) (ext : Externals) (selected_model query : string)
    (embedding : Embedding) :
  embed_query ext query = Ok embedding ->
  exists hits others,
    retrieved (with_store metric chunks ext) (page_rag_system selected_model)
              query
      = Ok (map chunk_text hits)
    /\ (List.length hits <= 5)%nat
    /\ ((List.length chunks < 5)%nat ->
        List.length hits = List.length chunks)
    /\ StronglySorted (nearer_or_equal metric embedding) hits
    /\ Permutation chunks (hits ++ others)
    /\ (forall c d, In c hits -> In d others ->
                    nearer_or_equal metric embedding c d).
Proof.
  intros He.
  destruct (retrieve_nearest_of_store metric chunks ext
              (page_rag_system selected_model) query embedding He)
    as (hits & others & Hr & Hlen & Hsorted & Hperm & Hnear).
  exists hits, others.
  change (Z.to_nat (n_results (page_rag_system selected_model))) with 5%nat
    in Hlen.
  split; [exact Hr|].
  split; [rewrite Hlen; apply Nat.le_min_r|].
  split; [intros Hm; rewrite Hlen; apply Nat.min_l; lia|].
  auto.
Qed.

Lemma retrieve_returns_nearest_top_k_witness :
  exists hits others,
    retrieved (with_store squared_l2 paris_chunks (scenario [] []))
              (page_rag_system "deepseek-r1:7b") paris_question
      = Ok (map chunk_text hits)
    /\ (List.length hits <= 5)%nat
    /\ ((3 < 5)%nat -> List.length hits = 3%nat)
    /\ StronglySorted (nearer_or_equal squared_l2 [0%Q; (1 # 2)%Q]) hits
    /\ Permutation paris_chunks (hits ++ others)
    /\ (forall c d, In c hits -> In d others ->
                    nearer_or_equal squared_l2 [0%Q; (1 # 2)%Q] c d).
Proof.
  exact (retrieve_returns_nearest_top_k squared_l2 paris_chunks
           (scenario [] []) "deepseek-r1:7b" paris_question
           [0%Q; (1 # 2)%Q] eq_refl).
Defined.

Example paris_retrieval :
  retrieved (with_store squared_l2 paris_chunks (scenario [] []))
            (page_rag_system "deepseek-r1:7b") paris_question
  = Ok ["It is known for the Eiffel Tower.";
        "Paris is the capital of France.";
        "The Seine river runs through it."].
Proof. reflexivity. Qed.

(** ** The text chunker *)

Lemma total_length_app (w u : list string) :
  total_length (w ++ u) = (total_length w + total_length u)%nat.
Proof.
  induction w as [|p w IH]; simpl; [reflexivity|].
  rewrite IH. lia.
Qed.

Lemma length_append (s t : string) :
  length (s ++ t) = (length s + length t)%nat.
Proof. induction s; simpl; congruence. Qed.

Lemma length_concat_all (w : list string) :
  length (concat_all w) = total_length w.
Proof.
  induction w as [|p w IH]; simpl; [reflexivity|].
  rewrite length_append, IH. reflexivity.
Qed.

Lemma shrink_leaves_room (overlap room : nat) (window : list string) :
  (total_length (shrink overlap room window) <= room)%nat.
Proof.
  induction window as [|p w IH]; [simpl; lia|].
  cbn [shrink].
  destruct ((overlap <? total_length (p :: w))%nat
            || (room <? total_length (p :: w))%nat) eqn:E; [exact IH|].
  apply orb_false_elim in E. destruct E as [_ E].
  apply Nat.ltb_ge in E. exact E.
Qed.

Section ChunkBound.

Variable chunk_size overlap : nat.

Lemma emit_chunk_fits (window : list string) :
  (total_length window <= chunk_size)%nat ->
  Forall (fits chunk_size) (emit_chunk window).
Proof.
  intros H. destruct window as [|p w]; [constructor|].
  constructor; [|constructor].
  unfold fits. rewrite length_concat_all. exact H.
Qed.

Lemma merge_fits (todo window : list string) :
  Forall (fits chunk_size) todo ->
  (total_length window <= chunk_size)%nat ->
  Forall (fits chunk_size) (merge chunk_size overlap todo window).
Proof.
  revert window. induction todo as [|piece rest IH]; intros window Ht Hw.
  - apply emit_chunk_fits, Hw.
  - inversion Ht as [|? ? Hp Hrest]; subst. unfold fits in Hp.
    cbn [merge].
    destruct (chunk_size <? total_length window + length piece)%nat eqn:E.
    + apply Forall_app. split; [apply emit_chunk_fits, Hw|].
      apply IH; [exact Hrest|].
      rewrite total_length_app.
      assert (R := shrink_leaves_room overlap (chunk_size - length piece)
                     window).
      unfold total_length at 2. cbn [fold_right].
      lia.
    + apply Nat.ltb_ge in E.
      apply IH; [exact Hrest|].
      rewrite total_length_app.
      unfold total_length at 2. cbn [fold_right].
      lia.
Qed.

Lemma characters_fit (text : string) :
  (1 <= chunk_size)%nat -> Forall (fits chunk_size) (characters text).
Proof.
  intros H. induction text as [|c text IH]; constructor; [exact H|exact IH].
Qed.

Lemma regroup_fits (split_finer : string -> list string)
    (todo good : list string) :
  (forall piece, Forall (fits chunk_size) (split_finer piece)) ->
  Forall (fits chunk_size) good ->
  Forall (fits chunk_size) (regroup chunk_size overlap split_finer todo good).
Proof.
  intros Hfiner. revert good.
  induction todo as [|piece rest IH]; intros good Hgood.
  - apply merge_fits; [exact Hgood|apply Nat.le_0_l].
  - cbn [regroup].
    destruct (length piece <=? chunk_size)%nat eqn:E.
    + apply IH. apply Forall_app. split; [exact Hgood|].
      constructor; [|constructor]. apply Nat.leb_le, E.
    + apply Forall_app. split.
      { apply merge_fits; [exact Hgood|apply Nat.le_0_l]. }
      apply Forall_app. split; [apply Hfiner|].
      apply IH. constructor.
Qed.

Lemma split_fits (separators : list string) (text : string) :
  (1 <= chunk_size)%nat ->
  Forall (fits chunk_size) (split separators chunk_size overlap text).
Proof.
  intros Hsize. revert text.
  induction separators as [|sep finer IH]; intros text.
  - simpl. apply merge_fits; [apply characters_fit, Hsize|apply Nat.le_0_l].
  - cbn [split].
    destruct (contains sep text && nonempty sep); [|apply IH].
    apply regroup_fits; [exact IH|constructor].
Qed.

Lemma split_empty (separators : list string) :
  split separators chunk_size overlap "" = [].
Proof.
  induction separators as [|sep finer IH]; [reflexivity|].
  cbn [split].
  destruct sep as [|c sep]; [exact IH|].
  simpl. exact IH.
Qed.

End ChunkBound.

Example split_words :
  split [" "] 12 5 "Paris is the capital of France."
  = ["Paris is the"; " the capital"; " of France."].
Proof. reflexivity. Qed.

Example split_falls_back_to_characters :
  split [" "] 4 2 "abcdefgh ij" = ["abcd"; "cdef"; "efgh"; " ij"].
Proof. reflexivity. Qed.

Example split_size_zero_overflows :
  split [" "] 0 0 "ab" = ["a"; "b"].
Proof. reflexivity. Qed.

(** C7. For every text and every chunk size of at least 1, whatever the
    separators and the overlap, each chunk the splitter emits has at most
    [chunk_size] characters, and the empty text gives no chunk at all;
    so it is for the page's splitter, with its 2000 and 200. *)
Theorem chunks_within_chunk_size (separators : list string)
    (chunk_size overlap : nat) (text : string) :
  (1 <= chunk_size)%nat ->
  Forall (fun chunk => (length chunk <= chunk_size)%nat)
         (split separators chunk_size overlap text)
  /\ split separators chunk_size overlap "" = []
  /\ Forall (fun chunk => (length chunk <= 2000)%nat) (split_text text)
  /\ split_text "" = [].
Proof.
  intros Hsize. split; [|split; [|split]].
  - apply split_fits, Hsize.
  - apply split_empty.
  - apply split_fits. lia.
  - apply split_empty.
Qed.

Lemma chunks_within_chunk_size_witness :
  Forall (fun chunk => (length chunk <= 12)%nat)
         ["Paris is the"; " the capital"; " of France."].
Proof.
  exact (proj1 (chunks_within_chunk_size [" "] 12 5
                  "Paris is the capital of France."
                  ltac:(repeat constructor))).
Defined.

(** * Further properties *)

(** ** Whole seconds: [//] and [%] by an integer *)

Lemma Qfloor_div_pos (x : Q) (k : positive) :
  Qfloor (x / inject_Z (Z.pos k)) = (Qfloor x / Z.pos k)%Z.
Proof.
  destruct x as [n d]. unfold Qdiv, Qmult, Qinv, inject_Z, Qfloor. simpl.
  rewrite Z.mul_1_r, Pos2Z.inj_mul.
  rewrite Z.div_div by lia. reflexivity.
Qed.

Lemma Qfloor_minus_Z (x : Q) (z : Z) :
  Qfloor (x - inject_Z z) = (Qfloor x - z)%Z.
Proof.
  destruct x as [n d]. unfold Qminus, Qplus, Qopp, inject_Z, Qfloor. simpl.
  rewrite Z.mul_1_r, Pos.mul_1_r.
  replace (n + - z * Z.pos d)%Z with (n + (- z) * Z.pos d)%Z by lia.
  rewrite Z.div_add by lia. lia.
Qed.

Lemma py_floordiv_whole (x : Q) (k : positive) :
  py_floordiv x (inject_Z (Z.pos k)) = inject_Z (Qfloor x / Z.pos k).
Proof. unfold py_floordiv. now rewrite Qfloor_div_pos. Qed.

Lemma floor_py_mod (x : Q) (k : positive) :
  Qfloor (py_mod x (inject_Z (Z.pos k))) = (Qfloor x mod Z.pos k)%Z.
Proof.
  unfold py_mod. rewrite py_floordiv_whole.
  rewrite (Qfloor_comp _ (x - inject_Z (Z.pos k * (Qfloor x / Z.pos k)))).
  - rewrite Qfloor_minus_Z. rewrite Z.mod_eq by lia. reflexivity.
  - rewrite inject_Z_mult. reflexivity.
Qed.

Lemma py_mod_not_negative (x : Q) (k : positive) :
  (0 <= py_mod x (inject_Z (Z.pos k)))%Q.
Proof.
  unfold py_mod, py_floordiv, Qminus.
  apply (proj1 (Qle_minus_iff _ _)).
  assert (H := Qfloor_le (x / inject_Z (Z.pos k))).
  apply (Qmult_le_l _ _ (inject_Z (Z.pos k))) in H; [|reflexivity].
  eapply Qle_trans; [exact H|].
  rewrite Qmult_div_r; [apply Qle_refl|discriminate].
Qed.

Lemma py_int_whole (z : Z) : py_int (inject_Z z) = z.
Proof.
  unfold py_int. destruct (Qle_bool 0 (inject_Z z)).
  - apply Qfloor_Z.
  - apply Qceiling_Z.
Qed.

Lemma py_int_py_mod (x : Q) (k : positive) :
  py_int (py_mod x (inject_Z (Z.pos k))) = (Qfloor x mod Z.pos k)%Z.
Proof.
  unfold py_int.
  assert (H := py_mod_not_negative x k).
  apply Qle_bool_iff in H. rewrite H. apply floor_py_mod.
Qed.

Lemma truthy_whole (z : Z) : truthy_num (inject_Z z) = negb (z =? 0)%Z.
Proof.
  unfold truthy_num. f_equal.
  destruct (Z.eqb_spec z 0) as [->|Hz].
  - reflexivity.
  - apply not_true_is_false. intros C. apply Qeq_bool_iff in C.
    apply (proj1 (inject_Z_injective z 0%Z)) in C. contradiction.
Qed.

(** Both [_format_time] functions, on the whole seconds [n] of the
    response time. *)
Lemma format_time_whole (response_time : Q) :
  _format_time response_time =
    let n := Qfloor response_time in
    if negb (n / 60 =? 0)%Z
    then str_int (n / 60) ++ "m " ++ str_int (n mod 60) ++ "s"
    else "Time: " ++ str_int (n mod 60) ++ "s".
Proof.
  unfold _format_time.
  change 60%Q with (inject_Z (Z.pos 60)).
  rewrite py_floordiv_whole, truthy_whole, py_int_whole, py_int_py_mod.
  reflexivity.
Qed.

Lemma convert_format_time_whole (response_time : Q) :
  Convert2Markdown._format_time response_time =
    let n := Qfloor response_time in
    if negb (n / 3600 =? 0)%Z
    then str_int (n / 3600) ++ "h " ++ str_int (n mod 3600 / 60) ++ "m "
         ++ str_int (n mod 60) ++ "s"
    else if negb (n mod 3600 / 60 =? 0)%Z
    then str_int (n mod 3600 / 60) ++ "m " ++ str_int (n mod 60) ++ "s"
    else "Time: " ++ str_int (n mod 60) ++ "s".
Proof.
  unfold Convert2Markdown._format_time.
  change 60%Q with (inject_Z (Z.pos 60)).
  change 3600%Q with (inject_Z (Z.pos 3600)).
  rewrite !py_floordiv_whole, !truthy_whole, !py_int_whole, py_int_py_mod.
  rewrite floor_py_mod.
  reflexivity.
Qed.

Lemma Qfloor_nonneg (x : Q) : (0 <= x)%Q -> (0 <= Qfloor x)%Z.
Proof.
  intros H. change 0%Z with (Qfloor 0). now apply Qfloor_resp_le.
Qed.

Lemma Qfloor_below (x : Q) (z : Z) : (x < inject_Z z)%Q -> (Qfloor x < z)%Z.
Proof.
  intros H. rewrite Zlt_Qlt.
  eapply Qle_lt_trans; [apply Qfloor_le|exact H].
Qed.

(** X1. [Convert2Markdown._format_time] of a time that is not negative
    prints the hours, minutes and seconds of its whole seconds: they add
    up to [floor(response_time)], minutes and seconds stay below 60, the
    hours part appears from one hour on, the minutes part from one minute
    on, and below a minute the text is "Time: {s}s". *)
Theorem convert_format_time_hours_minutes_seconds (response_time : Q) :
  (0 <= response_time)%Q ->
  exists h m s : Z,
    (Qfloor response_time = 3600 * h + 60 * m + s
     /\ 0 <= h /\ 0 <= m < 60 /\ 0 <= s < 60)%Z
    /\ Convert2Markdown._format_time response_time =
         if (3600 <=? Qfloor response_time)%Z
         then str_int h ++ "h " ++ str_int m ++ "m " ++ str_int s ++ "s"
         else if (60 <=? Qfloor response_time)%Z
         then str_int m ++ "m " ++ str_int s ++ "s"
         else "Time: " ++ str_int s ++ "s".
Proof.
  intros Hrt.
  assert (Hn := Qfloor_nonneg _ Hrt).
  set (n := Qfloor response_time) in *.
  exists (n / 3600)%Z, (n mod 3600 / 60)%Z, (n mod 60)%Z.
  assert (Hs : (n mod 60 = (n mod 3600) mod 60)%Z).
  { symmetry. apply Z.mod_mod_divide. exists 60%Z. reflexivity. }
  assert (Hr := Z.mod_pos_bound n 3600 ltac:(lia)).
  split.
  - assert (E1 := Z.div_mod n 3600 ltac:(lia)).
    assert (E2 := Z.div_mod (n mod 3600) 60 ltac:(lia)).
    assert (B := Z.mod_pos_bound (n mod 3600) 60 ltac:(lia)).
    assert (H1 : (0 <= n / 3600)%Z) by (apply Z.div_pos; lia).
    assert (H2 : (0 <= n mod 3600 / 60)%Z) by (apply Z.div_pos; lia).
    assert (H3 : (n mod 3600 / 60 < 60)%Z)
      by (apply Z.div_lt_upper_bound; lia).
    rewrite Hs. lia.
  - rewrite convert_format_time_whole. fold n. cbv zeta.
    destruct (3600 <=? n)%Z eqn:E1.
    + apply Z.leb_le in E1.
      assert (H : (n / 3600 =? 0)%Z = false).
      { apply Z.eqb_neq. intros C. apply Z.div_small_iff in C; lia. }
      rewrite H. reflexivity.
    + apply Z.leb_gt in E1.
      rewrite (Z.div_small n 3600) by lia.
      rewrite (Z.mod_small n 3600) by lia. simpl negb. cbv iota.
      destruct (60 <=? n)%Z eqn:E2.
      * apply Z.leb_le in E2.
        assert (H : (n / 60 =? 0)%Z = false).
        { apply Z.eqb_neq. intros C. apply Z.div_small_iff in C; lia. }
        rewrite H. reflexivity.
      * apply Z.leb_gt in E2.
        rewrite (Z.div_small n 60) by lia. reflexivity.
Qed.

Lemma convert_format_time_hours_minutes_seconds_witness :
  Convert2Markdown._format_time (7384 + (1 # 2)) = "2h 3m 4s".
Proof.
  destruct (convert_format_time_hours_minutes_seconds (7384 + (1 # 2))
              ltac:(discriminate)) as (h & m & s & (E & Hh & Hm & Hs) & ->).
  change (Qfloor (7384 + (1 # 2))) with 7384%Z in *.
  assert (h = 2 /\ m = 3 /\ s = 4)%Z as (-> & -> & ->) by lia.
  reflexivity.
Defined.

(** X2. Below one hour the two [_format_time] functions print the same
    text. *)
Theorem format_time_functions_agree_below_an_hour (response_time : Q) :
  (0 <= response_time)%Q ->
  (response_time < 3600)%Q ->
  Convert2Markdown._format_time response_time = _format_time response_time.
Proof.
  intros Hlo Hhi.
  assert (Hn := Qfloor_nonneg _ Hlo).
  assert (Hm := Qfloor_below _ 3600 Hhi).
  rewrite convert_format_time_whole, format_time_whole. cbv zeta.
  rewrite (Z.div_small (Qfloor response_time) 3600) by lia.
  rewrite (Z.mod_small (Qfloor response_time) 3600) by lia.
  reflexivity.
Qed.

Lemma format_time_functions_agree_below_an_hour_witness :
  Convert2Markdown._format_time (3599 + (9 # 10)) = "59m 59s"
  /\ _format_time (3599 + (9 # 10)) = "59m 59s".
Proof.
  split; [reflexivity|].
  rewrite <- (format_time_functions_agree_below_an_hour (3599 + (9 # 10))
                ltac:(discriminate) ltac:(reflexivity)).
  reflexivity.
Defined.

(** ** Searching in strings *)

Lemma prefix_empty (s : string) : prefix "" s = true.
Proof. now destruct s. Qed.

Lemma prefix_self_app (n x : string) : prefix n (n ++ x) = true.
Proof.
  induction n as [|a n IH]; [apply prefix_empty|].
  simpl. destruct (ascii_dec a a); [exact IH|contradiction].
Qed.

Lemma prefix_app (n a b : string) :
  prefix n a = true -> prefix n (a ++ b) = true.
Proof.
  revert a. induction n as [|c n IH]; intros a H; [apply prefix_empty|].
  destruct a as [|d a]; [discriminate|].
  simpl in *. destruct (ascii_dec c d); [now apply IH|discriminate].
Qed.

Lemma prefix_length (n a : string) :
  prefix n a = true -> (length n <= length a)%nat.
Proof.
  revert a. induction n as [|c n IH]; intros a H; [simpl; lia|].
  destruct a as [|d a]; [discriminate|].
  simpl in *. destruct (ascii_dec c d); [|discriminate].
  apply IH in H. lia.
Qed.

Lemma prefix_app_inv (n a b : string) :
  prefix n (a ++ b) = true -> (length n <= length a)%nat ->
  prefix n a = true.
Proof.
  revert a. induction n as [|c n IH]; intros a H L; [apply prefix_empty|].
  destruct a as [|d a]; [simpl in L; lia|].
  simpl in *. destruct (ascii_dec c d); [|discriminate].
  apply IH; [exact H|lia].
Qed.

Lemma drop_app (a x : string) : drop (length a) (a ++ x) = x.
Proof. induction a as [|c a IH]; [now destruct x|exact IH]. Qed.

Lemma find_some_length (n a : string) (i : nat) :
  find n a = Some i -> (i + length n <= length a)%nat.
Proof.
  revert i. induction a as [|c a IH]; intros i H.
  - cbn [find] in H. destruct (prefix n "") eqn:P; [|discriminate].
    inversion H; subst. apply prefix_length in P. simpl in *. lia.
  - cbn [find] in H. destruct (prefix n (String c a)) eqn:P.
    + inversion H; subst. apply prefix_length in P. simpl in *. lia.
    + destruct (find n a) as [j|]; [|discriminate].
      inversion H; subst. specialize (IH j eq_refl). simpl. lia.
Qed.

Lemma find_app (n a b : string) (i : nat) :
  find n a = Some i -> find n (a ++ b) = Some i.
Proof.
  revert i. induction a as [|c a IH]; intros i H.
  - cbn [find] in H. destruct (prefix n "") eqn:P; [|discriminate].
    inversion H; subst.
    destruct n; [|discriminate].
    now destruct b.
  - cbn [find] in H. cbn [append find].
    destruct (prefix n (String c a)) eqn:P.
    + change (String c (a ++ b)) with (String c a ++ b).
      rewrite (prefix_app _ _ b P). exact H.
    + destruct (find n a) as [j|] eqn:F; [|discriminate].
      assert (L := find_some_length _ _ _ F).
      destruct (prefix n (String c (a ++ b))) eqn:P'.
      * change (String c (a ++ b)) with (String c a ++ b) in P'.
        apply prefix_app_inv in P'; [congruence|simpl; lia].
      * rewrite (IH j eq_refl). exact H.
Qed.

Lemma contains_false_cons (n : string) (c : ascii) (s : string) :
  contains n (String c s) = false ->
  prefix n (String c s) = false /\ contains n s = false.
Proof. cbn [contains]. intros H. now apply orb_false_elim in H. Qed.

Lemma contains_false_find (n s : string) :
  contains n s = false -> find n s = None.
Proof.
  induction s as [|c s IH]; intros H.
  - cbn [contains find] in *. rewrite orb_false_r in H. now rewrite H.
  - apply contains_false_cons in H. destruct H as [P H].
    cbn [find]. rewrite P, (IH H). reflexivity.
Qed.

Lemma contains_false_drop (n s : string) (k : nat) :
  contains n s = false -> contains n (drop k s) = false.
Proof.
  revert s. induction k as [|k IH]; intros s H; [exact H|].
  destruct s as [|c s]; [exact H|].
  apply contains_false_cons in H. apply IH, H.
Qed.

(** ** [remove_tags] *)

Lemma sub_think_skip (x rest : string) :
  sub_think (x ++ rest) (length x) = sub_think rest 0.
Proof. induction x as [|c x IH]; [reflexivity|exact IH]. Qed.

Lemma sub_think_block (reasoning rest : string) :
  find close_tag (reasoning ++ close_tag) = Some (length reasoning) ->
  sub_think (open_tag ++ reasoning ++ close_tag ++ rest) 0
  = sub_think rest 0.
Proof.
  intros H.
  assert (M : match_think (open_tag ++ reasoning ++ close_tag ++ rest)
              = Some (length open_tag + length reasoning + length close_tag)%nat).
  { unfold match_think.
    rewrite prefix_self_app, drop_app.
    rewrite <- append_assoc, (find_app _ _ rest _ H). reflexivity. }
  change (open_tag ++ reasoning ++ close_tag ++ rest)
    with (String "<" ("think>" ++ reasoning ++ close_tag ++ rest)) in *.
  cbn [sub_think]. rewrite M.
  replace ("think>" ++ reasoning ++ close_tag ++ rest)
    with (("think>" ++ reasoning ++ close_tag) ++ rest)
    by (now rewrite !append_assoc).
  replace (pred (length open_tag + length reasoning + length close_tag))
    with (length ("think>" ++ reasoning ++ close_tag)).
  - apply sub_think_skip.
  - rewrite !length_append. reflexivity.
Qed.

(** X3. A reasoning block at the head of the response is removed whole:
    when no closing tag comes before the one that ends the block,
    [remove_tags] of [<think>reasoning</think>rest] is [remove_tags] of
    [rest]. *)
Theorem remove_tags_leading_block (reasoning rest : string) :
  find close_tag (reasoning ++ close_tag) = Some (length reasoning) ->
  remove_tags ("<think>" ++ reasoning ++ "</think>" ++ rest)
  = remove_tags rest.
Proof.
  intros H.
  exact (f_equal strip (sub_think_block reasoning rest H)).
Qed.

Lemma remove_tags_leading_block_witness :
  remove_tags ("<think>" ++ ("Is 1 < 2? </thin" ++ nl ++ "yes")
               ++ "</think>" ++ (nl ++ nl ++ "Paris is known for it. "))
  = "Paris is known for it.".
Proof.
  rewrite (remove_tags_leading_block ("Is 1 < 2? </thin" ++ nl ++ "yes")
             (nl ++ nl ++ "Paris is known for it. ") eq_refl).
  reflexivity.
Defined.

Lemma sub_think_without_tag (text : string) :
  contains open_tag text = false \/ contains close_tag text = false ->
  sub_think text 0 = text.
Proof.
  induction text as [|c text IH]; intros H; [reflexivity|].
  assert (M : match_think (String c text) = None).
  { unfold match_think. destruct H as [H|H].
    - apply contains_false_cons in H. now rewrite (proj1 H).
    - destruct (prefix open_tag (String c text)); [|reflexivity].
      now rewrite (contains_false_find _ _ (contains_false_drop _ _ _ H)). }
  cbn [sub_think]. rewrite M. f_equal. apply IH.
  destruct H as [H|H]; apply contains_false_cons in H; tauto.
Qed.

(** X4. A text that lacks the opening tag, or lacks the closing tag - a
    reasoning block still open, for one - loses nothing but the white
    space around it. *)
Theorem remove_tags_without_block (text : string) :
  contains "<think>" text = false \/ contains "</think>" text = false ->
  remove_tags text = strip text.
Proof.
  intros H.
  exact (f_equal strip (sub_think_without_tag text H)).
Qed.

Lemma remove_tags_without_block_witness :
  remove_tags " <think>still thinking about Paris " =
  "<think>still thinking about Paris".
Proof.
  rewrite (remove_tags_without_block " <think>still thinking about Paris "
             (or_intror eq_refl)).
  reflexivity.
Defined.

(** ** [strip] *)

Lemma lstrip_head (s : string) (c : ascii) (r : string) :
  lstrip s = String c r -> is_space c = false.
Proof.
  induction s as [|d s IH]; intros H; [discriminate|].
  cbn [lstrip] in H. destruct (is_space d) eqn:E; [now apply IH|].
  inversion H; subst. exact E.
Qed.

Lemma rstrip_head (s : string) (c : ascii) (r : string) :
  rstrip s = String c r -> exists s', s = String c s'.
Proof.
  destruct s as [|d s]; intros H; [discriminate|].
  cbn [rstrip] in H. exists s.
  destruct (rstrip s); [destruct (is_space d)|]; congruence.
Qed.

Lemma rstrip_last (s r : string) (c : ascii) :
  rstrip s = r ++ String c "" -> is_space c = false.
Proof.
  revert r. induction s as [|d s IH]; intros r H.
  - destruct r; discriminate.
  - cbn [rstrip] in H. destruct (rstrip s) as [|k kept] eqn:E.
    + destruct (is_space d) eqn:S.
      * destruct r; discriminate.
      * destruct r as [|x r]; [inversion H; subst; exact S|].
        inversion H. destruct r; discriminate.
    + destruct r as [|x r]; [discriminate|].
      inversion H; subst. eapply IH. eassumption.
Qed.

Lemma length_lstrip (s : string) : (length (lstrip s) <= length s)%nat.
Proof.
  induction s as [|c s IH]; [apply Nat.le_refl|].
  cbn [lstrip]. destruct (is_space c); simpl in *; lia.
Qed.

Lemma length_rstrip (s : string) : (length (rstrip s) <= length s)%nat.
Proof.
  induction s as [|c s IH]; [apply Nat.le_refl|].
  cbn [rstrip]. destruct (rstrip s); [destruct (is_space c)|];
    simpl in *; lia.
Qed.

Lemma length_sub_think (s : string) (skip : nat) :
  (length (sub_think s skip) <= length s)%nat.
Proof.
  revert skip. induction s as [|c s IH]; intros skip; [apply Nat.le_refl|].
  cbn [sub_think]. destruct skip as [|k].
  - destruct (match_think (String c s)) as [n|].
    + specialize (IH (pred n)). simpl. lia.
    + specialize (IH 0%nat). simpl. lia.
  - specialize (IH k). simpl. lia.
Qed.

(** X5. What [remove_tags] returns neither begins nor ends with white
    space, and is never longer than the text it was given. *)
Theorem remove_tags_trimmed_and_no_longer (text : string) :
  (forall c r, remove_tags text = String c r -> is_space c = false)
  /\ (forall r c, remove_tags text = r ++ String c "" -> is_space c = false)
  /\ (length (remove_tags text) <= length text)%nat.
Proof.
  unfold remove_tags, strip. split; [|split].
  - intros c r H. destruct (rstrip_head _ _ _ H) as [s' Hs].
    eapply lstrip_head. exact Hs.
  - intros r c H. eapply rstrip_last. exact H.
  - eapply Nat.le_trans; [apply length_rstrip|].
    eapply Nat.le_trans; [apply length_lstrip|apply length_sub_think].
Qed.

(** ** [Convert2Markdown._markdown_remove_images] *)

Example remove_images_two :
  Convert2Markdown._markdown_remove_images
    ("# Title" ++ nl ++ "![fig 1](a.jpeg) text ![fig 2](b.jpeg)." ++ nl)
  = "# Title" ++ nl ++ " text ." ++ nl.
Proof. reflexivity. Qed.

Lemma lacks_cons (c d : ascii) (s : string) :
  lacks c (String d s) = true -> d <> c /\ lacks c s = true.
Proof.
  cbn [lacks]. intros H. apply andb_prop in H. destruct H as [N H].
  split; [|exact H].
  apply negb_true_iff in N. now apply Ascii.eqb_neq.
Qed.

Lemma find_on_line_after (first : ascii) (needle pre x : string) :
  lacks first pre = true ->
  lacks "010" pre = true ->
  Convert2Markdown.find_on_line (String first needle) (pre ++ String first needle ++ x)
  = Some (length pre).
Proof.
  intros Hf Hn. induction pre as [|c pre IH].
  - assert (P : prefix (String first needle) (String first (needle ++ x))
                = true) by exact (prefix_self_app (String first needle) x).
    change ("" ++ String first needle ++ x)
      with (String first (needle ++ x)).
    cbn [Convert2Markdown.find_on_line]. now rewrite P.
  - apply lacks_cons in Hf. apply lacks_cons in Hn.
    destruct Hf as [Nf Hf], Hn as [Nn Hn].
    assert (P : prefix (String first needle)
                  (String c (pre ++ String first needle ++ x)) = false).
    { cbn [prefix]. destruct (ascii_dec first c); [congruence|reflexivity]. }
    apply Ascii.eqb_neq in Nn.
    change (String c pre ++ String first needle ++ x)
      with (String c (pre ++ String first needle ++ x)).
    cbn [Convert2Markdown.find_on_line].
    rewrite P, Nn, (IH Hf Hn). reflexivity.
Qed.

Lemma sub_images_skip (x rest : string) :
  Convert2Markdown.sub_images (x ++ rest) (length x) = Convert2Markdown.sub_images rest 0.
Proof. induction x as [|c x IH]; [reflexivity|exact IH]. Qed.

(** X6. An image reference at the head of the text is removed whole and
    the rest is treated on its own: when the alt text holds no closing
    bracket, the target no closing parenthesis, and neither a newline,
    [Convert2Markdown._markdown_remove_images] of [![alt](target)rest] is
    [Convert2Markdown._markdown_remove_images] of [rest]. *)
Theorem remove_images_leading_reference (alt target rest : string) :
  lacks "]" alt = true -> lacks "010" alt = true ->
  lacks ")" target = true -> lacks "010" target = true ->
  Convert2Markdown._markdown_remove_images
    ("![" ++ alt ++ "](" ++ target ++ ")" ++ rest)
  = Convert2Markdown._markdown_remove_images rest.
Proof.
  intros Ha1 Ha2 Ht1 Ht2. unfold Convert2Markdown._markdown_remove_images.
  assert (M : Convert2Markdown.match_image ("![" ++ alt ++ "](" ++ target ++ ")" ++ rest)
              = Some (2 + length alt + 2 + length target + 1)%nat).
  { unfold Convert2Markdown.match_image.
    rewrite prefix_self_app.
    change (drop 2 ("![" ++ alt ++ "](" ++ target ++ ")" ++ rest))
      with (alt ++ String "]" "(" ++ target ++ ")" ++ rest).
    rewrite (find_on_line_after "]" "(" alt _ Ha1 Ha2).
    replace ("![" ++ alt ++ "](" ++ target ++ ")" ++ rest)
      with (("![" ++ alt ++ "](") ++ target ++ String ")" "" ++ rest)
      by (now rewrite !append_assoc).
    replace (2 + length alt + 2)%nat with (length ("![" ++ alt ++ "]("))
      by (rewrite !length_append; simpl; lia).
    rewrite drop_app.
    rewrite (find_on_line_after ")" "" target _ Ht1 Ht2).
    rewrite !length_append. reflexivity. }
  change ("![" ++ alt ++ "](" ++ target ++ ")" ++ rest)
    with (String "!" ("[" ++ alt ++ "](" ++ target ++ ")" ++ rest)) in *.
  cbn [Convert2Markdown.sub_images]. rewrite M.
  replace ("[" ++ alt ++ "](" ++ target ++ ")" ++ rest)
    with (("[" ++ alt ++ "](" ++ target ++ ")") ++ rest)
    by (now rewrite !append_assoc).
  replace (pred (2 + length alt + 2 + length target + 1))
    with (length ("[" ++ alt ++ "](" ++ target ++ ")"))
    by (rewrite !length_append; simpl; lia).
  apply sub_images_skip.
Qed.

Lemma remove_images_leading_reference_witness :
  Convert2Markdown._markdown_remove_images
    ("![Figure [1" ++ "](" ++ "img/fig(1.jpeg" ++ ")" ++ " shows ![x](y)!")
  = " shows !".
Proof.
  exact (eq_trans
           (remove_images_leading_reference "Figure [1" "img/fig(1.jpeg"
              " shows ![x](y)!" eq_refl eq_refl eq_refl eq_refl)
           eq_refl).
Defined.

Lemma length_sub_images (s : string) (skip : nat) :
  (length (Convert2Markdown.sub_images s skip) <= length s)%nat.
Proof.
  revert skip. induction s as [|c s IH]; intros skip; [apply Nat.le_refl|].
  cbn [Convert2Markdown.sub_images]. destruct skip as [|k].
  - destruct (Convert2Markdown.match_image (String c s)) as [n|].
    + specialize (IH (pred n)). simpl. lia.
    + specialize (IH 0%nat). simpl. lia.
  - specialize (IH k). simpl. lia.
Qed.

Lemma sub_images_without_mark (text : string) :
  contains "![" text = false -> Convert2Markdown.sub_images text 0 = text.
Proof.
  induction text as [|c text IH]; intros H; [reflexivity|].
  apply contains_false_cons in H. destruct H as [P H].
  cbn [Convert2Markdown.sub_images]. unfold Convert2Markdown.match_image. rewrite P.
  f_equal. apply IH, H.
Qed.

(** X7. [Convert2Markdown._markdown_remove_images] never returns more
    characters than it was given, and a text in which [![] does not occur
    comes back as it is. *)
Theorem remove_images_only_removes (markdown : string) :
  (length (Convert2Markdown._markdown_remove_images markdown)
   <= length markdown)%nat
  /\ (contains "![" markdown = false ->
      Convert2Markdown._markdown_remove_images markdown = markdown).
Proof.
  split; [apply length_sub_images|apply sub_images_without_mark].
Qed.

Lemma remove_images_only_removes_witness :
  Convert2Markdown._markdown_remove_images "See [the site](http://x.y)!"
  = "See [the site](http://x.y)!".
Proof.
  exact (proj2 (remove_images_only_removes "See [the site](http://x.y)!")
               eq_refl).
Defined.

(** A needle without a newline is looked for on the first line only. *)
Lemma prefix_first_line (needle a b : string) :
  lacks "010" needle = true ->
  needle <> "" ->
  prefix needle (a ++ nl ++ b) = prefix needle a.
Proof.
  revert a. induction needle as [|c needle IH]; intros a Hn Hne;
    [contradiction|].
  apply lacks_cons in Hn. destruct Hn as [Nc Hn].
  destruct a as [|d a].
  - cbn. destruct (ascii_dec c "010"); [contradiction|reflexivity].
  - change (String d a ++ nl ++ b) with (String d (a ++ nl ++ b)).
    cbn [prefix]. destruct (ascii_dec c d); [|reflexivity].
    destruct needle as [|c' needle]; [now rewrite !prefix_empty|].
    apply IH; [exact Hn|discriminate].
Qed.

Lemma find_on_line_first_line (needle a b : string) :
  lacks "010" needle = true ->
  needle <> "" ->
  Convert2Markdown.find_on_line needle (a ++ nl ++ b)
  = Convert2Markdown.find_on_line needle a.
Proof.
  intros Hn Hne. induction a as [|d a IH].
  - assert (P := prefix_first_line needle "" b Hn Hne).
    change ("" ++ nl ++ b) with (String "010" b) in *.
    cbn [Convert2Markdown.find_on_line]. rewrite P.
    destruct (prefix needle ""); reflexivity.
  - assert (P := prefix_first_line needle (String d a) b Hn Hne).
    change (String d a ++ nl ++ b) with (String d (a ++ nl ++ b)) in *.
    cbn [Convert2Markdown.find_on_line]. rewrite P, IH. reflexivity.
Qed.

Lemma find_on_line_length (needle a : string) (i : nat) :
  Convert2Markdown.find_on_line needle a = Some i ->
  (i + length needle <= length a)%nat.
Proof.
  revert i. induction a as [|c a IH]; intros i H.
  - cbn [Convert2Markdown.find_on_line] in H.
    destruct (prefix needle "") eqn:P; [|discriminate].
    inversion H; subst. apply prefix_length in P. simpl in *. lia.
  - cbn [Convert2Markdown.find_on_line] in H.
    destruct (prefix needle (String c a)) eqn:P.
    + inversion H; subst. apply prefix_length in P. simpl in *. lia.
    + destruct (c =? "010")%char; [discriminate|].
      destruct (Convert2Markdown.find_on_line needle a) as [j|];
        [|discriminate].
      inversion H; subst. specialize (IH j eq_refl). simpl. lia.
Qed.

Lemma drop_app_le (k : nat) (a x : string) :
  (k <= length a)%nat -> drop k (a ++ x) = drop k a ++ x.
Proof.
  revert a. induction k as [|k IH]; intros a H; [reflexivity|].
  destruct a as [|c a]; [simpl in H; lia|].
  apply IH. simpl in H. lia.
Qed.

Lemma length_drop (k : nat) (a : string) :
  length (drop k a) = (length a - k)%nat.
Proof.
  revert a. induction k as [|k IH]; intros a; [simpl; lia|].
  destruct a as [|c a]; [reflexivity|]. apply IH.
Qed.

Lemma match_image_first_line (a b : string) :
  Convert2Markdown.match_image (a ++ nl ++ b)
  = Convert2Markdown.match_image a
  /\ (forall n, Convert2Markdown.match_image a = Some n ->
                (1 <= n <= length a)%nat).
Proof.
  unfold Convert2Markdown.match_image.
  rewrite (prefix_first_line "![" a b eq_refl ltac:(discriminate)).
  destruct (prefix "![" a) eqn:P; [|split; [reflexivity|discriminate]].
  apply prefix_length in P. simpl in P.
  rewrite (drop_app_le 2 a _ P).
  rewrite (find_on_line_first_line "](" _ b eq_refl ltac:(discriminate)).
  destruct (Convert2Markdown.find_on_line "](" (drop 2 a)) as [i|] eqn:F;
    [|split; [reflexivity|discriminate]].
  apply find_on_line_length in F. rewrite length_drop in F. simpl in F.
  rewrite (drop_app_le (2 + i + 2) a _ ltac:(lia)).
  rewrite (find_on_line_first_line ")" _ b eq_refl ltac:(discriminate)).
  destruct (Convert2Markdown.find_on_line ")" (drop (2 + i + 2) a))
    as [j|] eqn:G; [|split; [reflexivity|discriminate]].
  apply find_on_line_length in G. rewrite length_drop in G. simpl in G.
  split; [reflexivity|].
  intros n Hn. inversion Hn; subst. lia.
Qed.

Lemma sub_images_first_line (a b : string) (skip : nat) :
  (skip <= length a)%nat ->
  Convert2Markdown.sub_images (a ++ nl ++ b) skip
  = Convert2Markdown.sub_images a skip ++ nl
    ++ Convert2Markdown.sub_images b 0.
Proof.
  revert skip. induction a as [|c a IH]; intros skip Hs.
  - assert (skip = 0)%nat as -> by (simpl in Hs; lia). reflexivity.
  - destruct (match_image_first_line (String c a) b) as [M L].
    change (String c a ++ nl ++ b) with (String c (a ++ nl ++ b)) in *.
    cbn [Convert2Markdown.sub_images].
    destruct skip as [|k].
    + rewrite M.
      destruct (Convert2Markdown.match_image (String c a)) as [n|].
      * apply IH. specialize (L n eq_refl). simpl in L. lia.
      * rewrite IH by lia. reflexivity.
    + apply IH. simpl in Hs. lia.
Qed.

(** X8. Image references are removed line by line: a reference never
    reaches across a newline, so the result for two lines is the result
    for the first, the newline, and the result for the second. *)
Theorem remove_images_line_by_line (first_lines last_lines : string) :
  Convert2Markdown._markdown_remove_images
    (first_lines ++ nl ++ last_lines)
  = Convert2Markdown._markdown_remove_images first_lines ++ nl
    ++ Convert2Markdown._markdown_remove_images last_lines.
Proof.
  unfold Convert2Markdown._markdown_remove_images.
  apply sub_images_first_line. lia.
Qed.

(** ** [get_available_models] *)

Example models_of_a_listing :
  fst (get_available_models
         (Ok ("NAME              ID            SIZE    MODIFIED" ++ nl ++
              "deepseek-r1:7b    0a8c26691023  4.7 GB  2 days ago" ++ nl)))
  = ["NAME"; "deepseek-r1:7b"].
Proof. reflexivity. Qed.

Lemma split_char_not_nil (sep : ascii) (s : string) : split_char sep s <> [].
Proof.
  destruct s as [|c s]; [discriminate|].
  cbn [split_char]. destruct (Ascii.eqb c sep); [discriminate|].
  destruct (split_char sep s); discriminate.
Qed.

Lemma split_char_lacks_sep (sep : ascii) (s : string) :
  Forall (fun field => lacks sep field = true) (split_char sep s).
Proof.
  induction s as [|c s IH]; [repeat constructor|].
  cbn [split_char]. destruct (Ascii.eqb c sep) eqn:E.
  - constructor; [reflexivity|exact IH].
  - destruct (split_char sep s) as [|field fields];
      [repeat constructor; cbn [lacks]; now rewrite E|].
    inversion IH; subst. constructor; [|assumption].
    cbn [lacks]. rewrite E. assumption.
Qed.

Lemma split_char_lacks (c sep : ascii) (s : string) :
  lacks c s = true ->
  Forall (fun field => lacks c field = true) (split_char sep s).
Proof.
  induction s as [|d s IH]; intros H; [repeat constructor|].
  cbn [lacks] in H. apply andb_prop in H. destruct H as [Hd H].
  specialize (IH H).
  cbn [split_char]. destruct (Ascii.eqb d sep).
  - constructor; [reflexivity|exact IH].
  - destruct (split_char sep s) as [|field fields];
      [repeat constructor; cbn [lacks]; now rewrite Hd|].
    inversion IH; subst. constructor; [|assumption].
    cbn [lacks]. rewrite Hd. assumption.
Qed.

Lemma first_field_lacks (c : ascii) (line : string) :
  c = " "%char \/ lacks c line = true ->
  lacks c (first_field line) = true.
Proof.
  intros H. unfold first_field.
  assert (F : Forall (fun field => lacks c field = true)
                (split_char " " line)).
  { destruct H as [->|H];
      [apply split_char_lacks_sep|now apply split_char_lacks]. }
  destruct (split_char " " line); [reflexivity|].
  now inversion F.
Qed.

(** X9. No name returned by [get_available_models] holds a space or a
    newline: each one is the first word of a line of the listing. *)
Theorem model_names_are_single_words (ran : result string) :
  Forall (fun name => lacks " " name = true /\ lacks "010" name = true)
         (fst (get_available_models ran)).
Proof.
  destruct ran as [stdout|e]; [|constructor].
  cbn [get_available_models fst]. unfold listed_models.
  apply Forall_forall. intros name Hin.
  apply in_map_iff in Hin. destruct Hin as (line & <- & Hin).
  apply filter_In in Hin. destruct Hin as [Hin _].
  split.
  - apply first_field_lacks. now left.
  - apply first_field_lacks. right.
    exact (proj1 (Forall_forall _ _)
                 (split_char_lacks_sep "010" (strip stdout)) line Hin).
Qed.

Lemma lstrip_blank (s : string) : blank s = true -> lstrip s = "".
Proof.
  induction s as [|c s IH]; intros H; [reflexivity|].
  cbn [blank] in H. apply andb_prop in H. destruct H as [Hc H].
  cbn [lstrip]. rewrite Hc. apply IH, H.
Qed.

(** X10. [get_available_models] returns no model when the listing command
    raises - it then shows the exception as "Error fetching models: ..." -
    and when the command prints nothing but white space. *)
Theorem no_models_without_a_listing (ran : result string) :
  (exists e, ran = Raised e)
  \/ (exists stdout, ran = Ok stdout /\ blank stdout = true) ->
  fst (get_available_models ran) = []
  /\ (forall e, ran = Raised e ->
        snd (get_available_models ran)
        = Some ("Error fetching models: " ++ exn_msg e)).
Proof.
  intros [[e ->]|(stdout & -> & H)].
  - split; [reflexivity|]. intros e' E. inversion E; subst. reflexivity.
  - split; [|discriminate].
    cbn [get_available_models fst]. unfold listed_models, strip.
    rewrite (lstrip_blank _ H). reflexivity.
Qed.

Lemma no_models_without_a_listing_witness :
  get_available_models
    (Raised (Exception "FileNotFoundError"
               "[Errno 2] No such file or directory: 'ollama'"))
  = ([], Some "Error fetching models: [Errno 2] No such file or directory: 'ollama'")
  /\ fst (get_available_models (Ok (" " ++ nl ++ nl))) = [].
Proof.
  split; [reflexivity|].
  exact (proj1 (no_models_without_a_listing (Ok (" " ++ nl ++ nl))
                  (or_intror (ex_intro _ _ (conj eq_refl eq_refl))))).
Defined.

(** ** When the Generation Engine fails *)

Section EngineFailures.

Variable ext : Externals.
Variable rag_system : RAGSystem.
Variable query : string.
Variable docs : list string.

Hypothesis found : retrieved ext rag_system query = Ok docs.
Hypothesis some_found : truthy_list docs = true.

(** The run of the generator when the token count raises. *)
Lemma generate_response_count_raised (w : World) (e : Exn) :
  let prompt := prompt_of (join passage_delimiter docs) query in
  get_num_tokens ext prompt = Raised e ->
  generate_response ext rag_system query w =
    (mkWorld (trace w ++ retrieval_calls ext rag_system query
              ++ [LoggerInfo prompt; GetNumTokens prompt])
             (ticks w),
     Raised e).
Proof.
  intros prompt Htc.
  unfold generate_response, bind.
  rewrite retrieve_run, found, some_found. simpl negb. cbv iota.
  fold prompt. unfold emit, lift. simpl.
  rewrite Htc. repeat (rewrite <- app_assoc; simpl). reflexivity.
Qed.

(** The run of the generator when the stream breaks after [fragments]. *)
Lemma generate_response_stream_raised (w : World) (tc : Z)
    (fragments : list string) (e : Exn) :
  let prompt := prompt_of (join passage_delimiter docs) query in
  get_num_tokens ext prompt = Ok tc ->
  llm_stream ext prompt = (fragments, Some e) ->
  generate_response ext rag_system query w =
    (mkWorld
       (trace w ++ retrieval_calls ext rag_system query
        ++ [LoggerInfo prompt; GetNumTokens prompt; TimeTime; StreamOpen prompt]
        ++ map (fun s => Yield (VStr s)) (running "" fragments))
       (S (ticks w)),
     Raised e).
Proof.
  intros prompt Htc Hstream.
  unfold generate_response, bind.
  rewrite retrieve_run, found, some_found. simpl negb. cbv iota.
  fold prompt. unfold emit, lift, time_time, yield, emit, ret, raise. simpl.
  rewrite Htc. rewrite stream_loop_run. rewrite Hstream. simpl.
  repeat (rewrite <- app_assoc; simpl).
  reflexivity.
Qed.

(** The page when the stream breaks after [fragments]. *)
Lemma chat_handler_stream_raised (tc : Z) (fragments : list string)
    (e : Exn) :
  let prompt := prompt_of (join passage_delimiter docs) query in
  get_num_tokens ext prompt = Ok tc ->
  llm_stream ext prompt = (fragments, Some e) ->
  trace (fst (chat_handler ext rag_system query world0)) =
    ([AppendMessage "user" query; StMarkdown query]
     ++ retrieval_calls ext rag_system query
     ++ [LoggerInfo prompt; GetNumTokens prompt; TimeTime; StreamOpen prompt]
     ++ shown (accumulated fragments)
     ++ [AppendMessage "assistant" ("Error: " ++ exn_msg e); StRerun])%list.
Proof.
  intros prompt Htc Hstream.
  unfold chat_handler, bind, emit. simpl.
  unfold chat_try. simpl.
  rewrite (generate_response_stream_raised _ tc fragments e Htc Hstream).
  fold prompt. simpl.
  destruct (retrieval_calls_silent ext rag_system query) as [Hy _].
  unfold bind at 1.
  rewrite consume_app, (consume_calls _ _ _ Hy).
  cbn [consume]. unfold bind, emit. cbn [trace ticks].
  rewrite consume_texts. simpl.
  rewrite running_accumulated.
  repeat (rewrite <- app_assoc; simpl).
  reflexivity.
Qed.

End EngineFailures.

(** X11. When the stream of the language model breaks after some
    fragments, the caller of [generate_response] receives the accumulated
    strings of those fragments and then the exception, and no metadata
    record; the page has shown the partial answer, but what it stores for
    the assistant is only "Error: " and the message of the exception. *)
Theorem broken_stream_keeps_partial_answer_out_of_history (ext : Externals)
    (rag_system : RAGSystem) (query : string) (docs : list string) (tc : Z)
    (fragments : list string) (e : Exn) :
  retrieved ext rag_system query = Ok docs ->
  truthy_list docs = true ->
  get_num_tokens ext (prompt_of (join passage_delimiter docs) query) = Ok tc ->
  llm_stream ext (prompt_of (join passage_delimiter docs) query)
    = (fragments, Some e) ->
  yields (trace (fst (generate_response ext rag_system query world0)))
    = map VStr (accumulated fragments)
  /\ snd (generate_response ext rag_system query world0) = Raised e
  /\ rendered (trace (fst (chat_handler ext rag_system query world0)))
     = accumulated fragments
  /\ assistant_messages
       (trace (fst (chat_handler ext rag_system query world0)))
     = ["Error: " ++ exn_msg e].
Proof.
  intros Hdocs Hne Htc Hstream.
  destruct (retrieval_calls_silent ext rag_system query)
    as (Hy & _ & _ & Hr & Ha).
  rewrite (generate_response_stream_raised ext rag_system query docs
             Hdocs Hne world0 tc fragments e Htc Hstream).
  rewrite (chat_handler_stream_raised ext rag_system query docs
             Hdocs Hne tc fragments e Htc Hstream).
  split; [|split; [reflexivity|split]].
  - cbn [fst trace]. rewrite !yields_app, Hy. simpl.
    rewrite <- running_accumulated.
    induction (running "" fragments) as [|s l IH]; simpl; congruence.
  - rewrite !rendered_app, Hr, rendered_shown. simpl. apply app_nil_r.
  - rewrite !assistant_messages_app, Ha, assistant_messages_shown.
    reflexivity.
Qed.

Lemma broken_stream_keeps_partial_answer_out_of_history_witness :
  let ext := scenario_broken_stream paris_found ["It is "; "known for"] in
  let rag_system := page_rag_system "deepseek-r1:7b" in
  yields (trace (fst (generate_response ext rag_system paris_question world0)))
    = [VStr "It is "; VStr "It is known for"]
  /\ snd (generate_response ext rag_system paris_question world0)
     = Raised model_unreachable
  /\ rendered (trace (fst (chat_handler ext rag_system paris_question world0)))
     = ["It is "; "It is known for"]
  /\ assistant_messages
       (trace (fst (chat_handler ext rag_system paris_question world0)))
     = ["Error: language model unreachable"].
Proof.
  exact (broken_stream_keeps_partial_answer_out_of_history
           (scenario_broken_stream paris_found ["It is "; "known for"])
           (page_rag_system "deepseek-r1:7b") paris_question
           ["It is known for the Eiffel Tower.";
            "Paris is the capital of France.";
            "The Seine river runs through it."]
           747 ["It is "; "known for"] model_unreachable
           eq_refl eq_refl eq_refl eq_refl).
Defined.

(** X12. When counting the tokens of the prompt raises, the exception
    leaves [generate_response] before the clock is read and before the
    stream is opened: nothing is yielded, and the only call that reached
    the language model is the token count. *)
Theorem failed_token_count_opens_no_stream (ext : Externals)
    (rag_system : RAGSystem) (query : string) (docs : list string)
    (e : Exn) (w : World) :
  retrieved ext rag_system query = Ok docs ->
  truthy_list docs = true ->
  get_num_tokens ext (prompt_of (join passage_delimiter docs) query)
    = Raised e ->
  generate_response ext rag_system query w =
    (mkWorld (trace w ++ retrieval_calls ext rag_system query
              ++ [LoggerInfo (prompt_of (join passage_delimiter docs) query);
                  GetNumTokens (prompt_of (join passage_delimiter docs) query)])
             (ticks w),
     Raised e)
  /\ yields (trace (fst (generate_response ext rag_system query world0))) = []
  /\ engine_prompts
       (trace (fst (generate_response ext rag_system query world0)))
     = [prompt_of (join passage_delimiter docs) query].
Proof.
  intros Hdocs Hne Htc.
  destruct (retrieval_calls_silent ext rag_system query) as (Hy & Hp & _).
  rewrite !(generate_response_count_raised ext rag_system query docs
              Hdocs Hne _ e Htc).
  split; [reflexivity|]. cbn [fst trace]. split.
  - rewrite !yields_app, Hy. reflexivity.
  - rewrite !engine_prompts_app, Hp. reflexivity.
Qed.

Lemma failed_token_count_opens_no_stream_witness :
  snd (generate_response (scenario_uncounted paris_found ["unused"])
         (page_rag_system "deepseek-r1:7b") paris_question world0)
  = Raised model_unreachable.
Proof.
  exact (f_equal snd
           (proj1 (failed_token_count_opens_no_stream
                     (scenario_uncounted paris_found ["unused"])
                     (page_rag_system "deepseek-r1:7b") paris_question
                     ["It is known for the Eiffel Tower.";
                      "Paris is the capital of France.";
                      "The Seine river runs through it."]
                     model_unreachable world0 eq_refl eq_refl eq_refl))).
Defined.

(** ** The messages of a chat turn *)










(** ** The history over the runs of the script *)




(** ** [Convert2Markdown.pdf_to_markdown] *)

(** X15. [pdf_to_markdown] checks its arguments before it acts: without a
    converter, with an empty input path or output directory, or with an
    input file that does not exist, it raises a [ValueError] or a
    [FileNotFoundError] and nothing has been created, converted, written
    or removed. *)
Theorem pdf_to_markdown_checks_before_acting
    (tools : Convert2Markdown.Tools)
    (marker_converter : option (string -> result Convert2Markdown.Rendered))
    (input_pdf output_directory : string) (remove_images : bool) :
  marker_converter = None \/ input_pdf = "" \/ output_directory = ""
  \/ Convert2Markdown.path_exists tools input_pdf = false ->
  fst (Convert2Markdown.pdf_to_markdown tools marker_converter input_pdf
         output_directory remove_images) = []
  /\ exists e,
       snd (Convert2Markdown.pdf_to_markdown tools marker_converter
              input_pdf output_directory remove_images) = Raised e
       /\ (exn_class e = "ValueError" \/ exn_class e = "FileNotFoundError").
Proof.
  intros H. unfold Convert2Markdown.pdf_to_markdown.
  destruct marker_converter as [convert|];
    [|split; [reflexivity|eexists; split; [reflexivity|now left]]].
  destruct (negb (truthy_str input_pdf) || negb (truthy_str output_directory))
    eqn:E; [split; [reflexivity|eexists; split; [reflexivity|now left]]|].
  destruct (negb (Convert2Markdown.path_exists tools input_pdf)) eqn:X;
    [split; [reflexivity|eexists; split; [reflexivity|now right]]|].
  exfalso. apply orb_false_elim in E. destruct E as [E1 E2].
  apply negb_false_iff in X.
  destruct H as [H|[->|[->|H]]]; try discriminate; congruence.
Qed.

Lemma pdf_to_markdown_checks_before_acting_witness :
  fst (Convert2Markdown.pdf_to_markdown (obliging_tools "" [])
         (Some obliging_converter) "paper.pdf" "" true) = [].
Proof.
  exact (proj1 (pdf_to_markdown_checks_before_acting (obliging_tools "" [])
                  (Some obliging_converter) "paper.pdf" "" true
                  (or_intror (or_intror (or_introl eq_refl))))).
Defined.

Lemma fs_for_removes (tools : Convert2Markdown.Tools)
    (directory extension : string) (files : list string) :
  (forall path, Convert2Markdown.remove tools path = Ok tt) ->
  Convert2Markdown.fs_for files
    (fun file =>
       if ends_with extension file
       then Convert2Markdown.fs_call
              (Convert2Markdown.Remove (path_join directory file))
              (Convert2Markdown.remove tools (path_join directory file))
       else Convert2Markdown.fs_ret tt)
  = (map (fun file => Convert2Markdown.Remove (path_join directory file))
         (filter (ends_with extension) files),
     Ok tt).
Proof.
  intros Hrm. induction files as [|file files IH]; [reflexivity|].
  cbn [Convert2Markdown.fs_for filter]. rewrite IH.
  destruct (ends_with extension file); [|reflexivity].
  unfold Convert2Markdown.fs_bind, Convert2Markdown.fs_call.
  rewrite Hrm. reflexivity.
Qed.

Lemma remove_images_from_directory_done (tools : Convert2Markdown.Tools)
    (directory extension : string) (files : list string) :
  Convert2Markdown.listdir tools directory = Ok files ->
  (forall path, Convert2Markdown.remove tools path = Ok tt) ->
  Convert2Markdown._remove_images_from_directory tools directory extension
  = (Convert2Markdown.ListDir directory
     :: map (fun file => Convert2Markdown.Remove (path_join directory file))
            (filter (ends_with extension) files),
     Ok tt).
Proof.
  intros Hlist Hrm. unfold Convert2Markdown._remove_images_from_directory.
  rewrite Hlist. unfold Convert2Markdown.fs_bind at 1.
  unfold Convert2Markdown.fs_call at 1.
  rewrite (fs_for_removes tools directory extension files Hrm). reflexivity.
Qed.

(** X16. A conversion in which every call succeeds, with [remove_images]
    set: the Markdown file that the converter saved is read and written
    back, at the same path, with its image references removed; of the
    files of the output directory exactly those whose name ends with
    [.jpeg] are removed, in the order of the listing; and the last thing
    done is to print where the Markdown was saved. *)
Theorem pdf_to_markdown_cleans_markdown_and_jpegs
    (tools : Convert2Markdown.Tools)
    (convert : string -> result Convert2Markdown.Rendered)
    (input_pdf output_directory : string)
    (rendered : Convert2Markdown.Rendered) (content : string)
    (files : list string) :
  let base_filename := splitext_root (basename input_pdf) in
  let markdown_path :=
    path_join output_directory (base_filename ++ "_pdf.md") in
  input_pdf <> "" -> output_directory <> "" ->
  Convert2Markdown.path_exists tools input_pdf = true ->
  Convert2Markdown.makedirs tools output_directory = Ok tt ->
  convert input_pdf = Ok rendered ->
  Convert2Markdown.save_output tools rendered output_directory
    (base_filename ++ "_pdf") = Ok tt ->
  Convert2Markdown.read_text tools markdown_path = Ok content ->
  Convert2Markdown.write_text tools markdown_path
    (Convert2Markdown._markdown_remove_images content) = Ok tt ->
  Convert2Markdown.listdir tools output_directory = Ok files ->
  (forall path, Convert2Markdown.remove tools path = Ok tt) ->
  Convert2Markdown.pdf_to_markdown tools (Some convert) input_pdf
    output_directory true
  = ([Convert2Markdown.MakeDirs output_directory;
      Convert2Markdown.Convert input_pdf;
      Convert2Markdown.SaveOutput output_directory (base_filename ++ "_pdf");
      Convert2Markdown.ReadFile markdown_path;
      Convert2Markdown.WriteFile markdown_path
        (Convert2Markdown._markdown_remove_images content);
      Convert2Markdown.ListDir output_directory]
     ++ map (fun file =>
               Convert2Markdown.Remove (path_join output_directory file))
            (filter (ends_with ".jpeg") files)
     ++ [Convert2Markdown.Print
           ("Markdown saved: '" ++ markdown_path
            ++ "', Conversion completed in "
            ++ Convert2Markdown._format_time
                 (Convert2Markdown.now tools 1 - Convert2Markdown.now tools 0)%Q
            ++ " seconds")],
     Ok tt)%list.
Proof.
  intros base_filename markdown_path Hin Hout Hex Hmk Hconv Hsave Hread
    Hwrite Hlist Hrm.
  unfold Convert2Markdown.pdf_to_markdown.
  assert (T1 : truthy_str input_pdf = true)
    by (unfold truthy_str; apply negb_true_iff, String.eqb_neq, Hin).
  assert (T2 : truthy_str output_directory = true)
    by (unfold truthy_str; apply negb_true_iff, String.eqb_neq, Hout).
  rewrite T1, T2, Hex. cbn [negb orb].
  fold base_filename. fold markdown_path.
  unfold Convert2Markdown._load_file, Convert2Markdown._save_file.
  rewrite (remove_images_from_directory_done tools output_directory ".jpeg"
             files Hlist Hrm).
  rewrite Hmk, Hconv, Hread.
  unfold Convert2Markdown.fs_bind, Convert2Markdown.fs_call,
    Convert2Markdown.fs_try.
  rewrite Hsave, Hwrite.
  cbn [app]. reflexivity.
Qed.

Lemma pdf_to_markdown_cleans_markdown_and_jpegs_witness :
  Convert2Markdown.pdf_to_markdown
    (obliging_tools ("![p1](a.jpeg)# Paper" ++ nl)
                    ["a.jpeg"; "paper_pdf.md"; "b.png"; "c.jpeg"])
    (Some obliging_converter) "in/paper.v2.pdf" "out" true
  = ([Convert2Markdown.MakeDirs "out";
      Convert2Markdown.Convert "in/paper.v2.pdf";
      Convert2Markdown.SaveOutput "out" "paper.v2_pdf";
      Convert2Markdown.ReadFile "out/paper.v2_pdf.md";
      Convert2Markdown.WriteFile "out/paper.v2_pdf.md" ("# Paper" ++ nl);
      Convert2Markdown.ListDir "out";
      Convert2Markdown.Remove "out/a.jpeg";
      Convert2Markdown.Remove "out/c.jpeg";
      Convert2Markdown.Print
        "Markdown saved: 'out/paper.v2_pdf.md', Conversion completed in 1m 15s seconds"],
     Ok tt).
Proof.
  exact (pdf_to_markdown_cleans_markdown_and_jpegs
           (obliging_tools ("![p1](a.jpeg)# Paper" ++ nl)
                           ["a.jpeg"; "paper_pdf.md"; "b.png"; "c.jpeg"])
           obliging_converter "in/paper.v2.pdf" "out"
           (Convert2Markdown.mkRendered "# in/paper.v2.pdf")
           ("![p1](a.jpeg)# Paper" ++ nl)
           ["a.jpeg"; "paper_pdf.md"; "b.png"; "c.jpeg"]
           ltac:(discriminate) ltac:(discriminate)
           eq_refl eq_refl eq_refl eq_refl eq_refl eq_refl eq_refl
           (fun _ => eq_refl)).
Defined.



(** ** [Convert2Markdown._remove_images_from_directory] *)




(** ** What [generate_response] does in every case *)

(** X19. Without context there is no call to the language model: when
    retrieval returns no passage, or raises, [generate_response] neither
    counts tokens nor opens a stream, and it yields nothing. *)
Theorem no_context_no_engine_call (ext : Externals) (self : RAGSystem)
    (query : string) (w : World) :
  retrieved ext self query = Ok []
  \/ (exists e, retrieved ext self query = Raised e) ->
  trace (fst (generate_response ext self query w))
    = (trace w ++ retrieval_calls ext self query)%list
  /\ engine_prompts (retrieval_calls ext self query) = []
  /\ yields (retrieval_calls ext self query) = []
  /\ ticks (fst (generate_response ext self query w)) = ticks w.
Proof.
  intros H.
  destruct (retrieval_calls_silent ext self query) as (Hy & Hp & _).
  destruct H as [H|[e H]].
  - rewrite (generate_response_nothing_found ext self query w H). auto.
  - rewrite (generate_response_retrieval_raised ext self query w e H). auto.
Qed.

Lemma no_context_no_engine_call_witness :
  engine_prompts
    (trace (fst (generate_response (scenario [] ["unused"])
                   (page_rag_system "deepseek-r1:7b") paris_question world0)))
  = [].
Proof.
  destruct (no_context_no_engine_call (scenario [] ["unused"])
              (page_rag_system "deepseek-r1:7b") paris_question world0
              (or_introl eq_refl)) as (Ht & Hp & _).
  rewrite Ht. exact Hp.
Defined.

Lemma running_growing (acc : string) (chunks : list string) :
  growing (running acc chunks) = true.
Proof.
  revert acc. induction chunks as [|c chunks IH]; intros acc; [reflexivity|].
  cbn [running growing].
  destruct chunks as [|d chunks]; [reflexivity|].
  specialize (IH (acc ++ c)). cbn [running] in *.
  rewrite prefix_self_app. exact IH.
Qed.

(** X20. Whatever the collaborators do, the strings [generate_response]
    yields only grow - each one begins with the one before, so no text
    already shown is taken back - and they are followed by at most one
    metadata record. *)
Theorem text_updates_only_grow (ext : Externals) (self : RAGSystem)
    (query : string) :
  exists texts meta,
    yields (trace (fst (generate_response ext self query world0)))
      = (map VStr texts ++ meta)%list
    /\ growing texts = true
    /\ (meta = [] \/ exists tc elapsed, meta = [metadata tc elapsed]).
Proof.
  unfold generate_response, bind.
  rewrite retrieve_run.
  destruct (retrieval_calls_silent ext self query) as [Hy _].
  destruct (retrieved ext self query) as [docs|e].
  2:{ exists [], []. simpl. rewrite Hy. auto. }
  destruct docs as [|d docs].
  { exists [], []. simpl. rewrite Hy. auto. }
  simpl negb. cbv iota.
  set (prompt := prompt_of _ _).
  unfold emit, lift, time_time, yield, emit, ret, raise. simpl.
  destruct (get_num_tokens ext prompt) as [tc|e].
  2:{ exists [], []. simpl. rewrite !yields_app, Hy. auto. }
  rewrite stream_loop_run.
  destruct (llm_stream ext prompt) as [fragments [e|]]; simpl.
  - exists (running "" fragments), []. split; [|split; [|auto]].
    + rewrite !yields_app, Hy. simpl. rewrite app_nil_r.
      induction (running "" fragments) as [|s l IH]; simpl; congruence.
    + apply running_growing.
  - exists (running "" fragments),
      [metadata tc (clock ext 1 - clock ext 0)].
    split; [|split; [|eauto]].
    + rewrite !yields_app, Hy. simpl. f_equal.
      induction (running "" fragments) as [|s l IH]; simpl; congruence.
    + apply running_growing.
Qed.
